(** * SFMesh exporter: the binary encoding and container pipeline

    A shallow embedding of [sfmesh/__init__.py] (the functions
    [write_header], [write_objects], [write_sfmesh_raw] and [write_sfmesh])
    together with the parts of Python's [struct], [base64] and [int.to_bytes]
    that these functions call, and the properties of the produced bytes.

    Python integers that the code handles are lengths and counts, so they are
    modelled in [N].  Byte strings are [list byte].  The [io.BytesIO] buffer,
    the operator's report channel and the file system are the three fields of
    an explicit state that every writer threads; a Python exception is the
    [Raises] outcome of a computation.  [print] calls are left out: nothing
    reads standard output back. *)

From Stdlib Require Import List NArith ZArith Lia Bool String.
From Stdlib Require Import Strings.Byte.
Import ListNotations.

Local Open Scope N_scope.
Local Open Scope list_scope.

Set Implicit Arguments.

(** ** Bytes and little-endian integers *)

(** The byte whose value is [n mod 256]. *)
Definition byte_of_N (n : N) : byte :=
  match Byte.of_N (n mod 256) with
  | Some b => b
  | None => x00
  end.

(** [w] bytes of [n], least significant first. *)
Fixpoint le_bytes (w : nat) (n : N) : list byte :=
  match w with
  | O => []
  | S w' => byte_of_N n :: le_bytes w' (n / 256)
  end.

(** The number a little-endian byte string stands for. *)
Fixpoint le_value (bs : list byte) : N :=
  match bs with
  | [] => 0
  | b :: bs' => Byte.to_N b + 256 * le_value bs'
  end.

(** Python's [len] on a byte string or list. *)
Definition len {A : Type} (l : list A) : N := N.of_nat (List.length l).

(** ** Exceptions and outcomes *)

Inductive exn : Set :=
| struct_error      (* struct.error: integer out of range for its format *)
| OverflowError     (* int.to_bytes: int too big to convert *)
| IndexError        (* sequence index out of range *)
| AttributeError    (* attribute access on None *)
| RuntimeError.     (* raised by the host's geometry functions *)

Inductive result (A : Type) : Type :=
| Returns (a : A)
| Raises (e : exn).

Arguments Returns {A} a.
Arguments Raises {A} e.

(** ** [struct.pack] for the unsigned integer formats

    With a byte-order prefix ([<]) an integer outside the range of its
    format makes [struct.pack] raise [struct.error]; nothing is produced. *)

Definition pack_unsigned (w : nat) (n : N) : result (list byte) :=
  if n <? 2 ^ (8 * N.of_nat w) then Returns (le_bytes w n) else Raises struct_error.

Definition struct_pack_B : N -> result (list byte) := pack_unsigned 1.
Definition struct_pack_H : N -> result (list byte) := pack_unsigned 2.
Definition struct_pack_I : N -> result (list byte) := pack_unsigned 4.

(** [struct.pack("<BBB", a, b, c)]. *)
Definition struct_pack_BBB (a b c : N) : result (list byte) :=
  match struct_pack_B a, struct_pack_B b, struct_pack_B c with
  | Returns x, Returns y, Returns z => Returns (x ++ y ++ z)
  | _, _, _ => Raises struct_error
  end.

(** [n.to_bytes(length, "little")] for a non-negative [n]. *)
Definition to_bytes_little (n : N) (length : nat) : result (list byte) :=
  if n <? 2 ^ (8 * N.of_nat length) then Returns (le_bytes length n)
  else Raises OverflowError.

(** ** [base64.b64encode] (RFC 4648, standard alphabet, [=] padding) *)

Definition b64_alphabet : list byte :=
  list_byte_of_string
    "ABCDEFGHIJKLMNOPQRSTUVWXYZabcdefghijklmnopqrstuvwxyz0123456789+/".

Definition b64_pad : byte := "="%byte.

Definition b64_char (i : N) : byte := nth (N.to_nat i) b64_alphabet b64_pad.

(** The four sextets of a full group of three bytes. *)
Definition sextet0 (a : N) : N := a / 4.
Definition sextet1 (a b : N) : N := (a mod 4) * 16 + b / 16.
Definition sextet2 (b c : N) : N := (b mod 16) * 4 + c / 64.
Definition sextet3 (c : N) : N := c mod 64.

Fixpoint b64encode (bs : list byte) : list byte :=
  match bs with
  | [] => []
  | [a] =>
      let a := Byte.to_N a in
      [b64_char (sextet0 a); b64_char (sextet1 a 0); b64_pad; b64_pad]
  | [a; b] =>
      let a := Byte.to_N a in
      let b := Byte.to_N b in
      [b64_char (sextet0 a); b64_char (sextet1 a b); b64_char (sextet2 b 0);
       b64_pad]
  | a :: b :: c :: rest =>
      let a := Byte.to_N a in
      let b := Byte.to_N b in
      let c := Byte.to_N c in
      b64_char (sextet0 a) :: b64_char (sextet1 a b)
        :: b64_char (sextet2 b c) :: b64_char (sextet3 c) :: b64encode rest
  end.

(** The decoder of the consuming side, for canonical base64 text: the
    position of a character in the alphabet, and groups of four characters
    turned back into three bytes.  Padding is accepted in the last group
    only. *)

Fixpoint index_of (c : byte) (l : list byte) (i : N) : option N :=
  match l with
  | [] => None
  | x :: l' => if Byte.eqb x c then Some i else index_of c l' (i + 1)
  end.

Definition b64_index (c : byte) : option N := index_of c b64_alphabet 0.

Definition is_pad (c : byte) : bool := Byte.eqb c b64_pad.

Definition octet0 (s0 s1 : N) : byte := byte_of_N (s0 * 4 + s1 / 16).
Definition octet1 (s1 s2 : N) : byte := byte_of_N ((s1 mod 16) * 16 + s2 / 4).
Definition octet2 (s2 s3 : N) : byte := byte_of_N ((s2 mod 4) * 64 + s3).

Fixpoint b64decode (cs : list byte) : option (list byte) :=
  match cs with
  | [] => Some []
  | c0 :: c1 :: c2 :: c3 :: rest =>
      match b64_index c0, b64_index c1 with
      | Some s0, Some s1 =>
          if is_pad c2 then
            if is_pad c3 then
              match rest with [] => Some [octet0 s0 s1] | _ => None end
            else None
          else
            match b64_index c2 with
            | Some s2 =>
                if is_pad c3 then
                  match rest with
                  | [] => Some [octet0 s0 s1; octet1 s1 s2]
                  | _ => None
                  end
                else
                  match b64_index c3, b64decode rest with
                  | Some s3, Some tail =>
                      Some (octet0 s0 s1 :: octet1 s1 s2 :: octet2 s2 s3 :: tail)
                  | _, _ => None
                  end
            | None => None
            end
      | _, _ => None
      end
  | _ => None
  end.

(** ** The state the writers act on *)

Definition filesystem := list (string * list byte).

Record world : Type := mk_world {
  buffer : list byte;                  (* contents of the io.BytesIO buffer *)
  reports : list (string * string);    (* self.report calls: level, message *)
  files : filesystem                   (* files written so far *)
}.

(** Computations over the state that return a value or raise. *)
Definition M (A : Type) : Type := world -> result A * world.

Definition ret {A : Type} (a : A) : M A := fun w => (Returns a, w).

Definition raise {A : Type} (e : exn) : M A := fun w => (Raises e, w).

Definition bind {A B : Type} (m : M A) (k : A -> M B) : M B :=
  fun w =>
    match m w with
    | (Returns a, w') => k a w'
    | (Raises e, w') => (Raises e, w')
    end.

Definition lift {A : Type} (r : result A) : M A := fun w => (r, w).

Notation "x <- m ;; k" := (bind m (fun x => k))
  (at level 61, m at next level, right associativity).
Notation "m ;; k" := (bind m (fun _ => k))
  (at level 61, right associativity).

(** [buffer.write(bs)]: the buffer is only ever appended to. *)
Definition buffer_write (bs : list byte) : M unit :=
  fun w => (Returns tt, mk_world (buffer w ++ bs) (reports w) (files w)).

(** [buffer.getvalue()]. *)
Definition getvalue : M (list byte) := fun w => (Returns (buffer w), w).

(** [with io.BytesIO() as buffer: body]: [body] runs on a fresh buffer. *)
Definition with_BytesIO {A : Type} (body : M A) : M A :=
  fun w => body (mk_world [] (reports w) (files w)).

(** [self.report({level}, message)]. *)
Definition report (level message : string) : M unit :=
  fun w => (Returns tt, mk_world (buffer w) (reports w ++ [(level, message)]) (files w)).

(** Files: [open(path, "wb")] creates the file or empties it, [file.write]
    appends to it.  Opening and writing are taken to succeed. *)
Fixpoint fs_read (path : string) (fs : filesystem) : option (list byte) :=
  match fs with
  | [] => None
  | (p, content) :: fs' => if String.eqb p path then Some content else fs_read path fs'
  end.

Fixpoint fs_remove (path : string) (fs : filesystem) : filesystem :=
  match fs with
  | [] => []
  | (p, content) :: fs' =>
      if String.eqb p path then fs_remove path fs' else (p, content) :: fs_remove path fs'
  end.

Fixpoint fs_append (path : string) (bs : list byte) (fs : filesystem) : filesystem :=
  match fs with
  | [] => []
  | (p, content) :: fs' =>
      if String.eqb p path then (p, content ++ bs) :: fs'
      else (p, content) :: fs_append path bs fs'
  end.

Definition open_wb (path : string) : M unit :=
  fun w => (Returns tt, mk_world (buffer w) (reports w) ((path, []) :: fs_remove path (files w))).

Definition file_write (path : string) (bs : list byte) : M unit :=
  fun w => (Returns tt, mk_world (buffer w) (reports w) (fs_append path bs (files w))).

(** [for x in l: body x], for a body without [return]. *)
Fixpoint for_each {A : Type} (l : list A) (body : A -> M unit) : M unit :=
  match l with
  | [] => ret tt
  | x :: l' => body x ;; for_each l' body
  end.

(** [seq[i]] for a non-negative index. *)
Definition index {A : Type} (seq : list A) (i : nat) : M A :=
  match nth_error seq i with
  | Some a => ret a
  | None => raise IndexError
  end.

(** [sum] of a generator of numbers. *)
Definition sum (l : list N) : N := fold_right N.add 0 l.

(** ** The host's data, as far as the exporter reads it *)

(** [struct.pack] with format [f]: one float becomes four bytes (IEEE 754
    binary32, little-endian).  The float type and its encoding are kept
    abstract; the attribute values of a host mesh are stored in single
    precision, so the conversion neither rounds nor overflows. *)
Class SinglePrecision : Type := {
  float : Type;
  pack_f : float -> list byte;
  pack_f_length : forall v : float, List.length (pack_f v) = 4%nat
}.

Section Host.
Context {SP : SinglePrecision}.

Record Vector : Type := { x : float; y : float; z : float }.

Record Vector2 : Type := { uv_x : float; uv_y : float }.

Record MeshVertex : Type := { co : Vector; normal : Vector }.

Record MeshLoop : Type := { vertex_index : nat; tangent : Vector }.

(** [triangle.loops] holds the loop indices of the corners. *)
Record MeshLoopTriangle : Type := { tri_loops : list nat }.

Record Mesh : Type := {
  vertices : list MeshVertex;
  loops : list MeshLoop;
  uv_layers_active : option (list Vector2);   (* mesh.uv_layers.active.data *)
  loop_triangles : list MeshLoopTriangle
}.

(** What [mesh_owner.to_mesh()] does: raise [RuntimeError], or return a mesh
    or [None]. *)
Inductive to_mesh_outcome : Type :=
| to_mesh_raises
| to_mesh_returns (mesh : option Mesh).

End Host.

(** The host's geometry functions, kept abstract. *)
Class Bpy {SP : SinglePrecision} : Type := {
  Matrix : Type;
  matmul : Matrix -> Matrix -> Matrix;
  (* mesh.calc_loop_triangles() *)
  calc_loop_triangles : Mesh -> Mesh;
  (* lines 91-102 of write_objects: triangulate through bmesh, transform by
     the matrix, flip the normals of a negative matrix, calc_loop_triangles,
     calc_tangents; calc_tangents can raise *)
  prepare_mesh : Matrix -> Mesh -> result Mesh
}.

(** [lzma.compress(data, format=lzma.FORMAT_ALONE, preset=9)], kept
    abstract.  An LZMA-alone stream starts with a 13-byte header: one
    properties byte, four bytes of dictionary size, eight bytes of
    uncompressed size. *)
Class Lzma : Type := {
  lzma_compress : list byte -> list byte;
  lzma_alone_header : forall data, (13 <= List.length (lzma_compress data))%nat
}.

Section Exporter.
Context {SP : SinglePrecision} {BP : Bpy} {LZ : Lzma}.

(** A scene object.  [to_mesh] is the outcome of [obj.to_mesh()] and
    [evaluated_to_mesh] that of [obj.evaluated_get(depsgraph).to_mesh()];
    the two passes call it once each and nothing in between changes the
    scene, so an object has one outcome for both.
    [obj.update_from_editmode()] only refreshes what [to_mesh] reads, and
    [mesh_owner.to_mesh_clear()] frees the temporary mesh; neither touches
    the buffer. *)
Record Object : Type := {
  type : string;
  name : string;
  matrix_world : Matrix;
  to_mesh : to_mesh_outcome;
  evaluated_to_mesh : to_mesh_outcome
}.

(** [obj.name.encode("utf-8")]: a name is kept as its UTF-8 text. *)
Definition encode_utf8 (s : string) : list byte := list_byte_of_string s.

Definition mesh_owner_to_mesh (use_mesh_modifiers : bool) (obj : Object) : to_mesh_outcome :=
  if use_mesh_modifiers then evaluated_to_mesh obj else to_mesh obj.

(** ** The exporter *)

Definition version_major : N := 1.
Definition version_minor : N := 0.
Definition version_type : N := 0.

Definition is_MESH (obj : Object) : bool := String.eqb (type obj) "MESH".

Definition too_many_triangles (obj : Object) : string :=
  String.append "Object " (String.append (name obj) " has too many triangles!").

(** The [for obj in objects] loop of [write_header]. *)
Fixpoint write_header_loop (use_mesh_modifiers : bool) (objects : list Object) : M unit :=
  match objects with
  | [] => ret tt
  | obj :: rest =>
      match mesh_owner_to_mesh use_mesh_modifiers obj with
      | to_mesh_raises => ret tt                     (* except RuntimeError: return *)
      | to_mesh_returns None => ret tt               (* if mesh is None: return *)
      | to_mesh_returns (Some mesh) =>
          let mesh := calc_loop_triangles mesh in
          let num_tris := len (loop_triangles mesh) in
          (if 2 ^ 16 <=? num_tris
           then report "WARNING" (too_many_triangles obj)
           else ret tt) ;;
          let obj_name := encode_utf8 (name obj) in
          bs <- lift (struct_pack_I (len obj_name)) ;;
          buffer_write bs ;;
          buffer_write obj_name ;;
          bs <- lift (struct_pack_H num_tris) ;;
          buffer_write bs ;;
          write_header_loop use_mesh_modifiers rest
      end
  end.

Definition write_header (objects : list Object) (use_mesh_modifiers : bool) : M unit :=
  bs <- lift (struct_pack_BBB version_major version_minor version_type) ;;
  buffer_write bs ;;
  bs <- lift (struct_pack_I 0) ;;
  buffer_write bs ;;
  let num_objects := sum (map (fun _ => 1) (filter is_MESH objects)) in
  bs <- lift (struct_pack_I num_objects) ;;
  buffer_write bs ;;
  write_header_loop use_mesh_modifiers objects.

Definition pack_3f (a b c : float) : list byte := pack_f a ++ pack_f b ++ pack_f c.
Definition pack_2f (a b : float) : list byte := pack_f a ++ pack_f b.

(** The body of [for loop_index in reversed(triangle.loops)]. *)
Definition write_vertex (mesh : Mesh) (loop_index : nat) : M unit :=
  loop <- index (loops mesh) loop_index ;;
  let vertex_index := vertex_index loop in
  vertex <- index (vertices mesh) vertex_index ;;
  data <- match uv_layers_active mesh with
          | Some data => ret data
          | None => raise AttributeError
          end ;;
  uv <- index data loop_index ;;
  buffer_write (pack_3f (x (co vertex)) (y (co vertex)) (z (co vertex))) ;;
  buffer_write (pack_3f (x (normal vertex)) (y (normal vertex)) (z (normal vertex))) ;;
  buffer_write (pack_2f (uv_x uv) (uv_y uv)) ;;
  buffer_write (pack_3f (x (tangent loop)) (y (tangent loop)) (z (tangent loop))).

Definition write_triangle (mesh : Mesh) (triangle : MeshLoopTriangle) : M unit :=
  for_each (rev (tri_loops triangle)) (write_vertex mesh).

(** The [for obj in objects] loop of [write_objects]. *)
Fixpoint write_objects_loop (global_matrix : Matrix) (use_mesh_modifiers : bool)
    (objects : list Object) : M unit :=
  match objects with
  | [] => ret tt
  | obj :: rest =>
      match mesh_owner_to_mesh use_mesh_modifiers obj with
      | to_mesh_raises => ret tt
      | to_mesh_returns None => ret tt
      | to_mesh_returns (Some mesh) =>
          let mat := matmul global_matrix (matrix_world obj) in
          mesh <- lift (prepare_mesh mat mesh) ;;
          for_each (loop_triangles mesh) (write_triangle mesh) ;;
          write_objects_loop global_matrix use_mesh_modifiers rest
      end
  end.

Definition write_objects (objects : list Object) (global_matrix : Matrix)
    (use_mesh_modifiers : bool) : M unit :=
  write_objects_loop global_matrix use_mesh_modifiers objects.

Definition write_sfmesh_raw (objects : list Object) (global_matrix : Matrix)
    (use_mesh_modifiers : bool) : M unit :=
  write_header objects use_mesh_modifiers ;;
  write_objects objects global_matrix use_mesh_modifiers.

(** The bytes of [b'return "'] and of [b'"']. *)
Definition double_quote : byte := x22.
Definition return_quote : list byte := list_byte_of_string "return " ++ [double_quote].

Definition write_sfmesh (filepath : string) (objects : list Object)
    (global_matrix : Matrix) (use_mesh_modifiers write_raw_file : bool) : M unit :=
  with_BytesIO (
    write_sfmesh_raw objects global_matrix use_mesh_modifiers ;;
    if write_raw_file then
      buffer_value <- getvalue ;;
      open_wb filepath ;;
      file_write filepath buffer_value
    else
      buffer_value <- getvalue ;;
      let uncompressed_size := len buffer_value in
      let lzc_string := lzma_compress buffer_value in
      size_field <- lift (to_bytes_little uncompressed_size 8) ;;
      let lzc_string := firstn 5 lzc_string ++ size_field ++ skipn 13 lzc_string in
      let b64_string := b64encode lzc_string in
      open_wb filepath ;;
      file_write filepath return_quote ;;
      file_write filepath b64_string ;;
      file_write filepath [double_quote]).

End Exporter.

(** ** The layout of the raw stream

    Pure descriptions of what the writers append, used to state what the
    buffer holds after a run. *)

Section Layout.
Context {SP : SinglePrecision} {BP : Bpy}.

(** The state after appending [bs] to the buffer. *)
Definition emit (bs : list byte) (w : world) : world :=
  mk_world (buffer w ++ bs) (reports w) (files w).

(** A state with an empty buffer, as [write_sfmesh] sets it up. *)
Definition fresh (w : world) : world := mk_world [] (reports w) (files w).

(** The mesh an object resolves to, when resolution does not fail. *)
Definition resolve (use_mesh_modifiers : bool) (obj : Object) : option Mesh :=
  match mesh_owner_to_mesh use_mesh_modifiers obj with
  | to_mesh_returns (Some mesh) => Some mesh
  | _ => None
  end.

(** The triangle count that [write_header] reads for a resolved mesh. *)
Definition num_tris (mesh : Mesh) : N := len (loop_triangles (calc_loop_triangles mesh)).

(** version (3 bytes) and options (4 bytes). *)
Definition preamble : list byte := [x01; x00; x00; x00; x00; x00; x00].

(** The number of objects of type "MESH". *)
Definition count_MESH (objects : list Object) : N := len (filter is_MESH objects).

(** name-length, name, triangle-count. *)
Definition metadata_block (obj_name : list byte) (count : N) : list byte :=
  le_bytes 4 (len obj_name) ++ obj_name ++ le_bytes 2 count.

Definition object_metadata (use_mesh_modifiers : bool) (obj : Object) : list byte :=
  match resolve use_mesh_modifiers obj with
  | Some mesh => metadata_block (encode_utf8 (name obj)) (num_tris mesh)
  | None => []
  end.

(** An object whose metadata [write_header] can write: it resolves to a mesh,
    and its name length and triangle count fit their fields. *)
Definition header_ok (use_mesh_modifiers : bool) (obj : Object) : Prop :=
  exists mesh, resolve use_mesh_modifiers obj = Some mesh
    /\ len (encode_utf8 (name obj)) < 2 ^ 32
    /\ num_tris mesh < 2 ^ 16.

(** The concatenation of the pieces [f] gives for the elements of [l], when
    it gives one for each of them. *)
Fixpoint gather {A : Type} (f : A -> option (list byte)) (l : list A) : option (list byte) :=
  match l with
  | [] => Some []
  | a :: l' =>
      match f a, gather f l' with
      | Some b, Some bs => Some (b ++ bs)
      | _, _ => None
      end
  end.

(** The 44 bytes of a triangle corner. *)
Definition corner_bytes (vertex : MeshVertex) (uv : Vector2) (loop : MeshLoop) : list byte :=
  pack_f (x (co vertex)) ++ pack_f (y (co vertex)) ++ pack_f (z (co vertex))
  ++ pack_f (x (normal vertex)) ++ pack_f (y (normal vertex)) ++ pack_f (z (normal vertex))
  ++ pack_f (uv_x uv) ++ pack_f (uv_y uv)
  ++ pack_f (x (tangent loop)) ++ pack_f (y (tangent loop)) ++ pack_f (z (tangent loop)).

(** The bytes of the corner at [loop_index], when its loop, vertex and UV
    entries exist. *)
Definition vertex_record (mesh : Mesh) (loop_index : nat) : option (list byte) :=
  match nth_error (loops mesh) loop_index with
  | Some loop =>
      match nth_error (vertices mesh) (vertex_index loop) with
      | Some vertex =>
          match uv_layers_active mesh with
          | Some data =>
              match nth_error data loop_index with
              | Some uv => Some (corner_bytes vertex uv loop)
              | None => None
              end
          | None => None
          end
      | None => None
      end
  | None => None
  end.

Definition triangle_record (mesh : Mesh) (triangle : MeshLoopTriangle) : option (list byte) :=
  gather (vertex_record mesh) (rev (tri_loops triangle)).

Definition mesh_body (mesh : Mesh) : option (list byte) :=
  gather (triangle_record mesh) (loop_triangles mesh).

(** The body block [write_objects] writes for an object, when the object
    resolves, the host prepares its mesh and every corner can be read. *)
Definition object_body (global_matrix : Matrix) (use_mesh_modifiers : bool)
    (obj : Object) : option (list byte) :=
  match resolve use_mesh_modifiers obj with
  | Some mesh =>
      match prepare_mesh (matmul global_matrix (matrix_world obj)) mesh with
      | Returns mesh' => mesh_body mesh'
      | Raises _ => None
      end
  | None => None
  end.

Definition body_ok (global_matrix : Matrix) (use_mesh_modifiers : bool)
    (obj : Object) : Prop :=
  exists bs, object_body global_matrix use_mesh_modifiers obj = Some bs.

Definition body_bytes (global_matrix : Matrix) (use_mesh_modifiers : bool)
    (obj : Object) : list byte :=
  match object_body global_matrix use_mesh_modifiers obj with
  | Some bs => bs
  | None => []
  end.

(** The loop over [objects] stops here: the list is exhausted, or mesh
    resolution fails for its first object. *)
Definition stops (use_mesh_modifiers : bool) (objects : list Object) : Prop :=
  match objects with
  | [] => True
  | obj :: _ => resolve use_mesh_modifiers obj = None
  end.

(** The raw stream of a list whose loops stop at [rest]: the objects of
    [pre] are written, the count covers the whole list. *)
Definition raw_stream (gm : Matrix) (um : bool) (pre rest : list Object) : list byte :=
  preamble ++ le_bytes 4 (count_MESH (pre ++ rest))
  ++ List.concat (map (object_metadata um) pre)
  ++ List.concat (map (body_bytes gm um) pre).

(** The compressed stream with its size field overwritten. *)
Definition patched {LZ : Lzma} (raw : list byte) : list byte :=
  firstn 5 (lzma_compress raw) ++ le_bytes 8 (len raw) ++ skipn 13 (lzma_compress raw).

End Layout.

(** ** A concrete host

    Floats given by their binary32 bit pattern, host geometry functions that
    leave a mesh as it is, and a stand-in for the compressor that puts the
    13-byte header of an LZMA-alone stream (properties 5D, dictionary size
    2^26, size field all ones) in front of the stored data.  They instantiate
    the statements below on concrete scenes. *)

Definition bits32 : SinglePrecision :=
  {| float := N; pack_f := le_bytes 4; pack_f_length := fun _ => eq_refl |}.

Definition plain_bpy : @Bpy bits32 :=
  {| Matrix := unit;
     matmul := fun _ _ => tt;
     calc_loop_triangles := fun mesh => mesh;
     prepare_mesh := fun _ mesh => Returns mesh |}.

Definition stored_header : list byte :=
  [x5d; x00; x00; x00; x04; xff; xff; xff; xff; xff; xff; xff; xff].

Definition stored_lzma : Lzma :=
  {| lzma_compress := fun data => stored_header ++ data;
     lzma_alone_header := fun data => Nat.le_add_r 13 (List.length data) |}.

Definition vec (a b c : nat) : @Vector bits32 :=
  @Build_Vector bits32 (N.of_nat a) (N.of_nat b) (N.of_nat c).

Definition soup_vertex (i : nat) : @MeshVertex bits32 :=
  @Build_MeshVertex bits32 (vec i (i + 1) (i + 2)) (vec 0 0 1).

Definition soup_loop (i : nat) : @MeshLoop bits32 :=
  @Build_MeshLoop bits32 (Nat.modulo i 8) (vec 1 0 i).

Definition soup_uv (i : nat) : @Vector2 bits32 :=
  @Build_Vector2 bits32 (N.of_nat i) (N.of_nat (i + 1)).

Definition soup_triangle (i : nat) : MeshLoopTriangle :=
  Build_MeshLoopTriangle [3 * i; 3 * i + 1; 3 * i + 2]%nat.

(** A mesh of [n] triangles over eight vertices; triangle [i] has the loops
    [3i], [3i+1], [3i+2]. *)
Definition soup (n : nat) : @Mesh bits32 :=
  @Build_Mesh bits32
    (map soup_vertex (seq 0 8))
    (map soup_loop (seq 0 (3 * n)))
    (Some (map soup_uv (seq 0 (3 * n))))
    (map soup_triangle (seq 0 n)).

Definition mesh_object (type_ name_ : string) (n : nat) : @Object bits32 plain_bpy :=
  @Build_Object bits32 plain_bpy type_ name_ tt
    (to_mesh_returns (Some (soup n))) (to_mesh_returns (Some (soup n))).

Definition cube : @Object bits32 plain_bpy := mesh_object "MESH" "Cube" 12.

Definition plane : @Object bits32 plain_bpy := mesh_object "MESH" "Plane" 2.

(** A mesh of [n] triangles that all sit on one corner. *)
Definition flat (n : nat) : @Mesh bits32 :=
  @Build_Mesh bits32 [soup_vertex 0] [soup_loop 0] (Some [soup_uv 0])
    (repeat (Build_MeshLoopTriangle [0; 0; 0]%nat) n).

(** An object of 65536 triangles. *)
Definition dense : @Object bits32 plain_bpy :=
  @Build_Object bits32 plain_bpy "MESH" "Dense" tt
    (to_mesh_returns (Some (flat (Nat.pow 2 16))))
    (to_mesh_returns (Some (flat (Nat.pow 2 16)))).

(** A curve: not of type "MESH", yet [to_mesh] converts it. *)
Definition curve : @Object bits32 plain_bpy := mesh_object "CURVE" "Curve" 1.

(** A camera: [to_mesh] raises, it has no geometry. *)
Definition camera : @Object bits32 plain_bpy :=
  @Build_Object bits32 plain_bpy "CAMERA" "Camera" tt to_mesh_raises to_mesh_raises.

(** A mesh object whose [to_mesh] returns [None]. *)
Definition hollow : @Object bits32 plain_bpy :=
  @Build_Object bits32 plain_bpy "MESH" "Hollow" tt
    (to_mesh_returns None) (to_mesh_returns None).

(** The global matrix of the concrete scenes. *)
Definition identity : @Matrix bits32 plain_bpy := tt.

Definition blank : world := mk_world [] [] [].

(** ** The operator that drives the export

    [ExportSFMesh.execute] and the host functions it calls.  The path
    helpers ([bpy.path.ensure_ext], [bpy.path.clean_name],
    [os.path.splitext]), Python floats with the two operations applied to
    the scale, and the two matrix constructors are kept abstract. *)

Class Glue {SP : SinglePrecision} {BP : Bpy} : Type := {
  ensure_ext : string -> string -> string;
  clean_name : string -> string;
  splitext : string -> string * string;
  pyfloat : Type;
  fmul : pyfloat -> pyfloat -> pyfloat;
  fdiv : pyfloat -> pyfloat -> pyfloat;
  inch : pyfloat;                                      (* the literal 0.0254 *)
  axis_conversion_4x4 : string -> string -> Matrix;    (* axis_conversion(...).to_4x4() *)
  Matrix_Scale : pyfloat -> Matrix                     (* Matrix.Scale(s, 4) *)
}.

Module ExportSFMesh.
Section Operator.
Context {SP : SinglePrecision} {BP : Bpy} {LZ : Lzma} {GL : Glue}.

(** The properties of the operator that [execute] reads. *)
Record Operator : Type := {
  filepath : string;
  use_selection : bool;
  global_scale : pyfloat;
  use_scene_unit : bool;
  use_mesh_modifiers : bool;
  batch_mode : string;
  write_raw_file : bool;
  axis_forward : string;
  axis_up : string
}.

Record UnitSettings : Type := { system : string; scale_length : pyfloat }.

Record Scene : Type := { objects : list Object; unit_settings : UnitSettings }.

(** What [execute] reads of its [context]. *)
Record BlenderContext : Type := { scene : Scene; selected_objects : list Object }.

Definition check_extension (self : Operator) : bool :=
  String.eqb (batch_mode self) "OFF".

(** The path of an object's file in batch mode. *)
Definition obj_filepath (prefix filepath_ext : string) (object : Object) : string :=
  String.append prefix (String.append (clean_name (name object)) filepath_ext).

(** [execute(self, context)].  The assignment to [self.filepath] is the
    local [filepath]; [self.as_keywords] builds a dictionary that is not
    used. *)
Definition execute (self : Operator) (context : BlenderContext) : M (list string) :=
  let filepath_ext := if write_raw_file self then ".sfmesh"%string else ".txt"%string in
  let filepath := ensure_ext (filepath self) filepath_ext in
  let scene := scene context in
  let objects := if use_selection self then selected_objects context else objects scene in
  let global_scale := global_scale self in
  let global_scale :=
    if negb (String.eqb (system (unit_settings scene)) "NONE") && use_scene_unit self
    then fmul global_scale (fdiv (scale_length (unit_settings scene)) inch)
    else global_scale in
  let global_matrix :=
    matmul (axis_conversion_4x4 (axis_forward self) (axis_up self))
           (Matrix_Scale global_scale) in
  (if String.eqb (batch_mode self) "OFF" then
     write_sfmesh filepath objects global_matrix (use_mesh_modifiers self)
       (write_raw_file self)
   else if String.eqb (batch_mode self) "OBJECT" then
     let prefix := fst (splitext filepath) in
     for_each objects (fun object =>
       write_sfmesh (obj_filepath prefix filepath_ext object) [object] global_matrix
         (use_mesh_modifiers self) (write_raw_file self))
   else ret tt) ;;
  ret ["FINISHED"%string].

(** The values [execute] derives before it writes. *)
Definition export_ext (self : Operator) : string :=
  if write_raw_file self then ".sfmesh"%string else ".txt"%string.

Definition export_path (self : Operator) : string :=
  ensure_ext (filepath self) (export_ext self).

Definition export_objects (self : Operator) (context : BlenderContext) : list Object :=
  if use_selection self then selected_objects context else objects (scene context).

Definition export_matrix (self : Operator) (context : BlenderContext) : Matrix :=
  matmul (axis_conversion_4x4 (axis_forward self) (axis_up self))
    (Matrix_Scale
       (if negb (String.eqb (system (unit_settings (scene context))) "NONE")
           && use_scene_unit self
        then fmul (global_scale self)
               (fdiv (scale_length (unit_settings (scene context))) inch)
        else global_scale self)).

End Operator.
End ExportSFMesh.

(** ** What a run may change, and sizes *)

Section Frames.
Context {SP : SinglePrecision} {BP : Bpy} {LZ : Lzma}.

(** [w'] comes from [w] by appending to the buffer and by reporting
    warnings; the files are the same. *)
Definition extends (w w' : world) : Prop :=
  (exists bs, buffer w' = buffer w ++ bs)
  /\ (exists ws, reports w' = reports w ++ ws
                 /\ Forall (fun r => fst r = "WARNING"%string) ws)
  /\ files w' = files w.

(** The mesh the body pass reads for an object. *)
Definition prepared (gm : Matrix) (um : bool) (obj : Object) : option Mesh :=
  match resolve um obj with
  | Some mesh =>
      match prepare_mesh (matmul gm (matrix_world obj)) mesh with
      | Returns mesh' => Some mesh'
      | Raises _ => None
      end
  | None => None
  end.

Definition body_triangles (gm : Matrix) (um : bool) (obj : Object) : nat :=
  match prepared gm um obj with
  | Some mesh' => List.length (loop_triangles mesh')
  | None => O
  end.

Definition three_cornered (gm : Matrix) (um : bool) (obj : Object) : Prop :=
  match prepared gm um obj with
  | Some mesh' => Forall (fun t => List.length (tri_loops t) = 3%nat) (loop_triangles mesh')
  | None => True
  end.

(** The bytes an object takes in the raw stream: 4 of name length, the
    name, 2 of count, 132 per triangle. *)
Definition object_size (gm : Matrix) (um : bool) (obj : Object) : nat :=
  (6 + List.length (encode_utf8 (name obj)) + 132 * body_triangles gm um obj)%nat.

Definition total (l : list nat) : nat := fold_right Nat.add O l.

(** The export of the one-object list [[obj]] returns with the raw stream
    [raw], and no report. *)
Definition exports (gm : Matrix) (um : bool) (obj : Object) (raw : list byte) : Prop :=
  forall w, write_sfmesh_raw [obj] gm um (fresh w)
            = (Returns tt, mk_world raw (reports w) (files w)).

(** What [write_sfmesh] puts in the file for a raw stream. *)
Definition file_content (write_raw_file : bool) (raw : list byte) : list byte :=
  if write_raw_file then raw
  else return_quote ++ b64encode (patched raw) ++ [double_quote].

End Frames.

(** A stand-in for the path helpers and the scale arithmetic of the
    concrete scenes: the extension is appended, names are kept, a path has
    no extension to split off. *)
Definition plain_glue : @Glue bits32 plain_bpy :=
  @Build_Glue bits32 plain_bpy
    String.append (fun s => s) (fun s => (s, EmptyString))
    unit (fun _ _ => tt) (fun _ _ => tt) tt
    (fun _ _ => identity) (fun _ => identity).

Definition batch_operator (mode : string) (raw_file : bool) :
    @ExportSFMesh.Operator bits32 plain_bpy plain_glue :=
  @ExportSFMesh.Build_Operator bits32 plain_bpy plain_glue
    "out" false tt true false mode raw_file "Y" "Z".

Definition scene_of (objs : list (@Object bits32 plain_bpy)) :
    @ExportSFMesh.BlenderContext bits32 plain_bpy plain_glue :=
  @ExportSFMesh.Build_BlenderContext bits32 plain_bpy plain_glue
    (@ExportSFMesh.Build_Scene bits32 plain_bpy plain_glue objs
       (@ExportSFMesh.Build_UnitSettings bits32 plain_bpy plain_glue "METRIC" tt))
    [].

(** A host whose preparation of a mesh raises when the mesh has no UV map,
    as [calc_tangents] does. *)
Definition strict_bpy : @Bpy bits32 :=
  @Build_Bpy bits32 unit (fun _ _ => tt) (fun mesh => mesh)
    (fun _ mesh =>
       match @uv_layers_active bits32 mesh with
       | Some _ => Returns mesh
       | None => Raises RuntimeError
       end).

(** A mesh of one triangle without UV map, and its object. *)
Definition bare : @Mesh bits32 :=
  @Build_Mesh bits32 [soup_vertex 0] [soup_loop 0] None
    [Build_MeshLoopTriangle [0; 0; 0]%nat].

Definition bare_object : @Object bits32 strict_bpy :=
  @Build_Object bits32 strict_bpy "MESH" "Bare" tt
    (to_mesh_returns (Some bare)) (to_mesh_returns (Some bare)).

(** * Properties *)

Unset Implicit Arguments.

(** ** Bytes, little-endian fields and base64 *)

Ltac ndiv := intros; zify; Z.to_euclidean_division_equations; lia.

Lemma byte_of_N_to_N (b : byte) : byte_of_N (Byte.to_N b) = b.
Proof.
  unfold byte_of_N.
  rewrite N.mod_small by (pose proof (Byte.to_N_bounded b); lia).
  now rewrite Byte.of_to_N.
Qed.

Lemma to_N_byte_of_N (n : N) : Byte.to_N (byte_of_N n) = n mod 256.
Proof.
  unfold byte_of_N.
  destruct (Byte.of_N (n mod 256)) as [b|] eqn:E.
  - now apply Byte.to_of_N.
  - apply Byte.of_N_None_iff in E.
    pose proof (N.mod_upper_bound n 256). lia.
Qed.

Lemma to_N_lt_256 (b : byte) : Byte.to_N b < 256.
Proof. pose proof (Byte.to_N_bounded b). lia. Qed.

Lemma le_bytes_length (w : nat) (n : N) : List.length (le_bytes w n) = w.
Proof.
  revert n. induction w as [|w IH]; intros n; simpl; [reflexivity|].
  now rewrite IH.
Qed.

(** A value that fits in [w] bytes is read back from its little-endian
    bytes. *)
Lemma le_value_le_bytes (w : nat) (n : N) :
  n < 2 ^ (8 * N.of_nat w) -> le_value (le_bytes w n) = n.
Proof.
  revert n. induction w as [|w IH]; intros n Hn.
  - simpl in *. lia.
  - cbn [le_bytes le_value]. rewrite to_N_byte_of_N.
    rewrite IH.
    + pose proof (N.div_mod n 256). lia.
    + replace (8 * N.of_nat (S w)) with (8 + 8 * N.of_nat w) in Hn by lia.
      rewrite N.pow_add_r in Hn. change (2 ^ 8) with 256 in Hn.
      apply N.Div0.div_lt_upper_bound. exact Hn.
Qed.

Lemma pack_unsigned_fits (w : nat) {n : N} :
  n < 2 ^ (8 * N.of_nat w) -> pack_unsigned w n = Returns (le_bytes w n).
Proof.
  intros H. unfold pack_unsigned.
  apply N.ltb_lt in H. now rewrite H.
Qed.

Lemma pack_unsigned_overflow (w : nat) (n : N) :
  2 ^ (8 * N.of_nat w) <= n -> pack_unsigned w n = Raises struct_error.
Proof.
  intros H. unfold pack_unsigned.
  apply N.ltb_ge in H. now rewrite H.
Qed.

(** Every alphabet character is found at its own index and is not the
    padding character. *)
Lemma b64_index_char {i : N} :
  i < 64 -> b64_index (b64_char i) = Some i /\ is_pad (b64_char i) = false.
Proof.
  intros Hi.
  assert (Hall : forallb (fun k =>
            match b64_index (b64_char (N.of_nat k)) with
            | Some j => (j =? N.of_nat k) && negb (is_pad (b64_char (N.of_nat k)))
            | None => false
            end) (seq 0 64) = true) by (vm_compute; reflexivity).
  rewrite forallb_forall in Hall.
  specialize (Hall (N.to_nat i)).
  rewrite N2Nat.id in Hall.
  assert (Hin : In (N.to_nat i) (seq 0 64)) by (apply in_seq; lia).
  specialize (Hall Hin).
  destruct (b64_index (b64_char i)) as [j|]; [|discriminate].
  apply andb_prop in Hall. destruct Hall as [Hj Hp].
  apply N.eqb_eq in Hj. subst j.
  split; [reflexivity|]. now destruct (is_pad (b64_char i)).
Qed.

Lemma sextet0_lt {a : N} : a < 256 -> sextet0 a < 64.
Proof. unfold sextet0. ndiv. Qed.

Lemma sextet1_lt (a : N) {b : N} : b < 256 -> sextet1 a b < 64.
Proof. unfold sextet1. ndiv. Qed.

Lemma sextet2_lt (b : N) {c : N} : c < 256 -> sextet2 b c < 64.
Proof. unfold sextet2. ndiv. Qed.

Lemma sextet3_lt (c : N) : sextet3 c < 64.
Proof. unfold sextet3. ndiv. Qed.

Lemma octet0_sextets (a b : byte) :
  octet0 (sextet0 (Byte.to_N a)) (sextet1 (Byte.to_N a) (Byte.to_N b)) = a.
Proof.
  unfold octet0, sextet0, sextet1.
  pose proof (to_N_lt_256 a). pose proof (to_N_lt_256 b).
  rewrite <- (byte_of_N_to_N a) at 3. f_equal. ndiv.
Qed.

Lemma octet0_sextets_last (a : byte) :
  octet0 (sextet0 (Byte.to_N a)) (sextet1 (Byte.to_N a) 0) = a.
Proof.
  unfold octet0, sextet0, sextet1.
  pose proof (to_N_lt_256 a).
  rewrite <- (byte_of_N_to_N a) at 3. f_equal. ndiv.
Qed.

Lemma octet1_sextets {a b c : N} (b' : byte) :
  b = Byte.to_N b' -> c < 256 ->
  octet1 (sextet1 a b) (sextet2 b c) = b'.
Proof.
  intros -> Hc. unfold octet1, sextet1, sextet2.
  pose proof (to_N_lt_256 b').
  rewrite <- (byte_of_N_to_N b') at 3. f_equal. ndiv.
Qed.

Lemma octet2_sextets (b : N) (c : byte) :
  octet2 (sextet2 b (Byte.to_N c)) (sextet3 (Byte.to_N c)) = c.
Proof.
  unfold octet2, sextet2, sextet3.
  pose proof (to_N_lt_256 c).
  rewrite <- (byte_of_N_to_N c) at 3. f_equal. ndiv.
Qed.

(** Induction on byte strings three bytes at a time. *)
Lemma list_ind3 {A : Type} (P : list A -> Prop) :
  P [] -> (forall a, P [a]) -> (forall a b, P [a; b]) ->
  (forall a b c l, P l -> P (a :: b :: c :: l)) ->
  forall l, P l.
Proof.
  intros H0 H1 H2 H3.
  fix rec 1.
  intros [|a [|b [|c l]]].
  - exact H0.
  - exact (H1 a).
  - exact (H2 a b).
  - exact (H3 a b c l (rec l)).
Qed.

(** Decoding undoes encoding. *)
Lemma b64decode_b64encode (bs : list byte) : b64decode (b64encode bs) = Some bs.
Proof.
  induction bs as [|a|a b|a b c rest IH] using list_ind3.
  - reflexivity.
  - cbn [b64encode b64decode].
    destruct (b64_index_char (sextet0_lt (to_N_lt_256 a))) as [-> _].
    destruct (@b64_index_char (sextet1 (Byte.to_N a) 0)) as [-> _];
      [apply sextet1_lt; lia|].
    change (is_pad b64_pad) with true. cbn iota.
    now rewrite octet0_sextets_last.
  - cbn [b64encode b64decode].
    destruct (b64_index_char (sextet0_lt (to_N_lt_256 a))) as [-> _].
    destruct (b64_index_char (sextet1_lt (Byte.to_N a) (to_N_lt_256 b))) as [-> _].
    destruct (@b64_index_char (sextet2 (Byte.to_N b) 0)) as [-> ->];
      [apply sextet2_lt; lia|].
    change (is_pad b64_pad) with true. cbn iota.
    rewrite octet0_sextets.
    now rewrite (octet1_sextets (c := 0) b eq_refl) by lia.
  - cbn [b64encode b64decode].
    destruct (b64_index_char (sextet0_lt (to_N_lt_256 a))) as [-> _].
    destruct (b64_index_char (sextet1_lt (Byte.to_N a) (to_N_lt_256 b))) as [-> _].
    destruct (b64_index_char (sextet2_lt (Byte.to_N b) (to_N_lt_256 c))) as [-> ->].
    destruct (b64_index_char (sextet3_lt (Byte.to_N c))) as [-> ->].
    rewrite IH.
    rewrite octet0_sextets, octet2_sextets.
    now rewrite (octet1_sextets b eq_refl (to_N_lt_256 c)).
Qed.

(** ** Running the writers *)

Section Writers.
Context {SP : SinglePrecision} {BP : Bpy} {LZ : Lzma}.

Lemma emit_nil (w : world) : emit [] w = w.
Proof. destruct w; unfold emit; cbn. now rewrite app_nil_r. Qed.

Lemma emit_emit (a b : list byte) (w : world) : emit b (emit a w) = emit (a ++ b) w.
Proof. unfold emit; cbn. now rewrite app_assoc. Qed.

Lemma bind_returns {A B : Type} (m : M A) (k : A -> M B) {w w' : world} {a : A} :
  m w = (Returns a, w') -> bind m k w = k a w'.
Proof. intros H. unfold bind. now rewrite H. Qed.

Lemma bind_raises {A B : Type} (m : M A) (k : A -> M B) {w w' : world} {e : exn} :
  m w = (Raises e, w') -> bind m k w = (Raises e, w').
Proof. intros H. unfold bind. now rewrite H. Qed.

Lemma gather_app {A : Type} (f : A -> option (list byte)) (l1 l2 : list A) (b1 b2 : list byte) :
  gather f l1 = Some b1 -> gather f l2 = Some b2 -> gather f (l1 ++ l2) = Some (b1 ++ b2).
Proof.
  revert b1. induction l1 as [|a l1 IH]; intros b1 H1 H2; cbn in *.
  - now inversion H1.
  - destruct (f a) as [b|]; [|discriminate].
    destruct (gather f l1) as [bs|]; [|discriminate].
    inversion H1; subst. rewrite (IH bs eq_refl H2). now rewrite app_assoc.
Qed.

(** When every piece has [k] bytes, the pieces of [l] have [k * length l]. *)
Lemma gather_length {A : Type} (f : A -> option (list byte)) {k : nat} {l : list A} :
  (forall a b, In a l -> f a = Some b -> List.length b = k) ->
  forall bs, gather f l = Some bs -> List.length bs = (k * List.length l)%nat.
Proof.
  induction l as [|a l IH]; intros Hk bs H; cbn in *.
  - inversion H; subst. cbn. lia.
  - destruct (f a) as [b|] eqn:Ea; [|discriminate].
    destruct (gather f l) as [bs'|]; [|discriminate].
    inversion H; subst. rewrite length_app.
    rewrite (Hk a b (or_introl eq_refl) Ea).
    rewrite (IH (fun a' b' Hin => Hk a' b' (or_intror Hin)) bs' eq_refl). lia.
Qed.

(** A loop whose body appends the piece of each element appends the
    gathered pieces. *)
Lemma for_each_gather {A : Type} (f : A -> option (list byte)) {body : A -> M unit}
    {l : list A} :
  (forall a b w, In a l -> f a = Some b -> body a w = (Returns tt, emit b w)) ->
  forall bs w, gather f l = Some bs -> for_each l body w = (Returns tt, emit bs w).
Proof.
  induction l as [|a l IH]; intros Hbody bs w H; cbn in *.
  - inversion H; subst. unfold ret. now rewrite emit_nil.
  - destruct (f a) as [b|] eqn:Ea; [|discriminate].
    destruct (gather f l) as [bs'|] eqn:El; [|discriminate].
    inversion H; subst.
    rewrite (bind_returns _ _ (Hbody a b w (or_introl eq_refl) Ea)).
    rewrite (IH (fun a' b' w' Hin => Hbody a' b' w' (or_intror Hin)) bs' (emit b w) eq_refl).
    now rewrite emit_emit.
Qed.

Lemma corner_bytes_length (vertex : MeshVertex) (uv : Vector2) (loop : MeshLoop) :
  List.length (corner_bytes vertex uv loop) = 44%nat.
Proof.
  unfold corner_bytes. repeat rewrite length_app.
  repeat rewrite pack_f_length. reflexivity.
Qed.

Lemma vertex_record_length (mesh : Mesh) (loop_index : nat) (bs : list byte) :
  vertex_record mesh loop_index = Some bs -> List.length bs = 44%nat.
Proof.
  unfold vertex_record. intros H.
  destruct (nth_error (loops mesh) loop_index) as [loop|]; [|discriminate].
  destruct (nth_error (vertices mesh) (vertex_index loop)) as [vertex|]; [|discriminate].
  destruct (uv_layers_active mesh) as [data|]; [|discriminate].
  destruct (nth_error data loop_index) as [uv|]; [|discriminate].
  inversion H; subst. apply corner_bytes_length.
Qed.

Lemma write_vertex_record (mesh : Mesh) (loop_index : nat) (bs : list byte) (w : world) :
  vertex_record mesh loop_index = Some bs ->
  write_vertex mesh loop_index w = (Returns tt, emit bs w).
Proof.
  unfold vertex_record. intros H.
  destruct (nth_error (loops mesh) loop_index) as [loop|] eqn:E1; [|discriminate].
  destruct (nth_error (vertices mesh) (vertex_index loop)) as [vertex|] eqn:E2; [|discriminate].
  destruct (uv_layers_active mesh) as [data|] eqn:E3; [|discriminate].
  destruct (nth_error data loop_index) as [uv|] eqn:E4; [|discriminate].
  inversion H; subst.
  unfold write_vertex, index, bind. rewrite E1. cbn. rewrite E2. cbn.
  rewrite E3. cbn. rewrite E4.
  unfold ret, buffer_write, emit, corner_bytes, pack_3f, pack_2f. cbn.
  repeat rewrite <- app_assoc. reflexivity.
Qed.

Lemma write_triangle_record (mesh : Mesh) (triangle : MeshLoopTriangle) (bs : list byte)
    (w : world) :
  triangle_record mesh triangle = Some bs ->
  write_triangle mesh triangle w = (Returns tt, emit bs w).
Proof.
  unfold triangle_record, write_triangle. intros H.
  apply (for_each_gather (vertex_record mesh)); [|exact H].
  intros a b w' _ Ha. now apply write_vertex_record.
Qed.

Lemma write_mesh_body (mesh : Mesh) {bs : list byte} (w : world) :
  mesh_body mesh = Some bs ->
  for_each (loop_triangles mesh) (write_triangle mesh) w = (Returns tt, emit bs w).
Proof.
  unfold mesh_body. intros H.
  apply (for_each_gather (triangle_record mesh)); [|exact H].
  intros a b w' _ Ha. now apply write_triangle_record.
Qed.

(** A mesh of [n] triangles with three corners each has a body of
    [132 * n] bytes. *)
Lemma mesh_body_length (mesh : Mesh) (bs : list byte) :
  Forall (fun t => List.length (tri_loops t) = 3%nat) (loop_triangles mesh) ->
  mesh_body mesh = Some bs ->
  List.length bs = (132 * List.length (loop_triangles mesh))%nat.
Proof.
  intros H3 H. unfold mesh_body in H.
  apply (gather_length (triangle_record mesh)); [|exact H].
  intros t b Hin Ht. rewrite Forall_forall in H3. specialize (H3 t Hin).
  unfold triangle_record in Ht.
  rewrite (gather_length (vertex_record mesh) (k := 44) (l := rev (tri_loops t))) with (bs := b).
  - rewrite length_rev, H3. reflexivity.
  - intros a b' _ Hb. now apply vertex_record_length with (mesh := mesh) (loop_index := a).
  - exact Ht.
Qed.

Lemma sum_ones {A : Type} (l : list A) : sum (map (fun _ => 1) l) = len l.
Proof.
  unfold sum, len. induction l as [|a l IH]; cbn [map fold_right List.length].
  - reflexivity.
  - rewrite IH. lia.
Qed.

(** *** The header pass *)

Lemma write_header_loop_step {um : bool} {obj : Object} (rest : list Object)
    {mesh : Mesh} (w : world) :
  resolve um obj = Some mesh ->
  len (encode_utf8 (name obj)) < 2 ^ 32 ->
  num_tris mesh < 2 ^ 16 ->
  write_header_loop um (obj :: rest) w
  = write_header_loop um rest (emit (metadata_block (encode_utf8 (name obj)) (num_tris mesh)) w).
Proof.
  intros Hres Hname Htris. unfold resolve in Hres.
  cbn [write_header_loop].
  destruct (mesh_owner_to_mesh um obj) as [|[m|]]; try discriminate.
  inversion Hres; subst m. fold (num_tris mesh).
  apply N.leb_gt in Htris. rewrite Htris.
  unfold struct_pack_I, struct_pack_H.
  rewrite (pack_unsigned_fits 4 Hname).
  apply N.leb_gt in Htris.
  rewrite (pack_unsigned_fits 2 Htris).
  unfold bind, ret, lift, buffer_write. cbn.
  f_equal. unfold emit, metadata_block. cbn.
  repeat rewrite <- app_assoc. reflexivity.
Qed.

Lemma write_header_loop_prefix {um : bool} {pre : list Object} (rest : list Object) (w : world) :
  Forall (header_ok um) pre ->
  write_header_loop um (pre ++ rest) w
  = write_header_loop um rest (emit (List.concat (map (object_metadata um) pre)) w).
Proof.
  intros H. revert w. induction H as [|obj pre [mesh [Hres [Hname Htris]]] _ IH]; intros w.
  - cbn. now rewrite emit_nil.
  - cbn [app map List.concat].
    rewrite (write_header_loop_step (pre ++ rest) w Hres Hname Htris).
    rewrite IH, emit_emit. unfold object_metadata at 2. now rewrite Hres.
Qed.

Lemma write_header_loop_stops {um : bool} {rest : list Object} (w : world) :
  stops um rest -> write_header_loop um rest w = (Returns tt, w).
Proof.
  destruct rest as [|obj rest]; intros H; cbn in *; [reflexivity|].
  unfold resolve in H.
  destruct (mesh_owner_to_mesh um obj) as [|[m|]]; try discriminate; reflexivity.
Qed.

Lemma write_header_run (um : bool) {objects : list Object} (w : world) :
  count_MESH objects < 2 ^ 32 ->
  write_header objects um w
  = write_header_loop um objects (emit (preamble ++ le_bytes 4 (count_MESH objects)) w).
Proof.
  intros Hcount. unfold write_header. rewrite sum_ones. fold (count_MESH objects).
  unfold struct_pack_I at 2. rewrite (pack_unsigned_fits 4 Hcount).
  unfold bind, lift, buffer_write. cbn.
  f_equal. unfold emit. cbn. repeat rewrite <- app_assoc. reflexivity.
Qed.

(** *** The body pass *)

Lemma write_objects_loop_step {gm : Matrix} {um : bool} {obj : Object}
    (rest : list Object) {bs : list byte} (w : world) :
  object_body gm um obj = Some bs ->
  write_objects_loop gm um (obj :: rest) w = write_objects_loop gm um rest (emit bs w).
Proof.
  unfold object_body, resolve. intros H. cbn [write_objects_loop].
  destruct (mesh_owner_to_mesh um obj) as [|[m|]]; try discriminate.
  destruct (prepare_mesh (matmul gm (matrix_world obj)) m) as [m'|e] eqn:Ep; [|discriminate].
  cbv zeta. unfold bind at 1. unfold lift.
  now rewrite (bind_returns _ _ (write_mesh_body m' w H)).
Qed.

Lemma write_objects_loop_prefix {gm : Matrix} {um : bool} {pre : list Object}
    (rest : list Object) (w : world) :
  Forall (body_ok gm um) pre ->
  write_objects_loop gm um (pre ++ rest) w
  = write_objects_loop gm um rest (emit (List.concat (map (body_bytes gm um) pre)) w).
Proof.
  intros H. revert w. induction H as [|obj pre [bs Hbs] _ IH]; intros w.
  - cbn. now rewrite emit_nil.
  - cbn [app map List.concat].
    rewrite (write_objects_loop_step (pre ++ rest) w Hbs).
    rewrite IH, emit_emit. unfold body_bytes at 2. now rewrite Hbs.
Qed.

Lemma write_objects_loop_stops (gm : Matrix) {um : bool} {rest : list Object} (w : world) :
  stops um rest -> write_objects_loop gm um rest w = (Returns tt, w).
Proof.
  destruct rest as [|obj rest]; intros H; cbn in *; [reflexivity|].
  unfold resolve in H.
  destruct (mesh_owner_to_mesh um obj) as [|[m|]]; try discriminate; reflexivity.
Qed.

(** *** Both passes *)

Lemma write_sfmesh_raw_run (gm : Matrix) (um : bool) (pre rest : list Object) (w : world) :
  Forall (header_ok um) pre ->
  Forall (body_ok gm um) pre ->
  stops um rest ->
  count_MESH (pre ++ rest) < 2 ^ 32 ->
  write_sfmesh_raw (pre ++ rest) gm um w = (Returns tt, emit (raw_stream gm um pre rest) w).
Proof.
  intros Hh Hb Hs Hc. unfold write_sfmesh_raw, write_objects.
  assert (E : write_header (pre ++ rest) um w
              = (Returns tt, emit (preamble ++ le_bytes 4 (count_MESH (pre ++ rest))
                                     ++ List.concat (map (object_metadata um) pre)) w)).
  { rewrite (write_header_run um w Hc), (write_header_loop_prefix rest _ Hh).
    rewrite (write_header_loop_stops _ Hs), emit_emit.
    now rewrite <- app_assoc. }
  rewrite (bind_returns _ _ E).
  rewrite (write_objects_loop_prefix rest _ Hb), (write_objects_loop_stops gm _ Hs).
  rewrite emit_emit. unfold raw_stream. now repeat rewrite <- app_assoc.
Qed.

(** *** Compression and file output *)

Lemma fs_read_head (path : string) (content : list byte) (fs : filesystem) :
  fs_read path ((path, content) :: fs) = Some content.
Proof. cbn. now rewrite String.eqb_refl. Qed.

Lemma fs_append_head (path : string) (content bs : list byte) (fs : filesystem) :
  fs_append path bs ((path, content) :: fs) = (path, content ++ bs) :: fs.
Proof. cbn. now rewrite String.eqb_refl. Qed.

Lemma to_bytes_little_fits (n : N) (w : nat) :
  n < 2 ^ (8 * N.of_nat w) -> to_bytes_little n w = Returns (le_bytes w n).
Proof.
  intros H. unfold to_bytes_little. apply N.ltb_lt in H. now rewrite H.
Qed.

(** Raw mode: the buffer goes to the file as it is. *)
Lemma write_sfmesh_raw_mode (path : string) (objects : list Object) (gm : Matrix)
    (um : bool) (w w1 : world) :
  write_sfmesh_raw objects gm um (fresh w) = (Returns tt, w1) ->
  write_sfmesh path objects gm um true w
  = (Returns tt,
     mk_world (buffer w1) (reports w1) ((path, buffer w1) :: fs_remove path (files w1))).
Proof.
  intros H. unfold write_sfmesh, with_BytesIO. fold (fresh w).
  rewrite (bind_returns _ _ H).
  unfold bind, getvalue, open_wb, file_write. cbn [buffer reports files].
  now rewrite fs_append_head.
Qed.

(** Packed mode: prefix, base64 of the patched stream, closing quote. *)
Lemma write_sfmesh_packed_mode (path : string) (objects : list Object) (gm : Matrix)
    (um : bool) (w w1 : world) :
  write_sfmesh_raw objects gm um (fresh w) = (Returns tt, w1) ->
  len (buffer w1) < 2 ^ 64 ->
  write_sfmesh path objects gm um false w
  = (Returns tt,
     mk_world (buffer w1) (reports w1)
       ((path, return_quote ++ b64encode (patched (buffer w1)) ++ [double_quote])
          :: fs_remove path (files w1))).
Proof.
  intros H Hsize. unfold write_sfmesh, with_BytesIO. fold (fresh w).
  rewrite (bind_returns _ _ H).
  unfold bind at 1. unfold getvalue. cbv zeta.
  unfold bind at 1. unfold lift. rewrite (to_bytes_little_fits _ 8 Hsize).
  unfold bind, open_wb, file_write. cbn [buffer reports files].
  repeat rewrite fs_append_head. cbn [app]. reflexivity.
Qed.

(** An exception of the raw writer leaves [write_sfmesh] before any file is
    opened. *)
Lemma write_sfmesh_raises (path : string) (objects : list Object) (gm : Matrix)
    (um raw_file : bool) (w w1 : world) (e : exn) :
  write_sfmesh_raw objects gm um (fresh w) = (Raises e, w1) ->
  write_sfmesh path objects gm um raw_file w = (Raises e, w1).
Proof.
  intros H. unfold write_sfmesh, with_BytesIO. fold (fresh w).
  now rewrite (bind_raises _ _ H).
Qed.

Lemma firstn_app_exact {A : Type} (n : nat) (l1 l2 : list A) :
  List.length l1 = n -> firstn n (l1 ++ l2) = l1.
Proof.
  intros <-. rewrite firstn_app, Nat.sub_diag, firstn_O, app_nil_r.
  apply firstn_all.
Qed.

Lemma skipn_app_exact {A : Type} (n : nat) (l1 l2 : list A) :
  List.length l1 = n -> skipn n (l1 ++ l2) = l2.
Proof.
  intros <-. rewrite skipn_app, Nat.sub_diag, skipn_all. reflexivity.
Qed.

(** The patch replaces bytes 5 to 12 and nothing else. *)
Lemma patched_layout (raw : list byte) :
  List.length (patched raw) = List.length (lzma_compress raw)
  /\ firstn 5 (patched raw) = firstn 5 (lzma_compress raw)
  /\ firstn 8 (skipn 5 (patched raw)) = le_bytes 8 (len raw)
  /\ skipn 13 (patched raw) = skipn 13 (lzma_compress raw).
Proof.
  unfold patched.
  pose proof (lzma_alone_header raw) as H13.
  set (c := lzma_compress raw) in *.
  assert (H5 : List.length (firstn 5 c) = 5%nat) by (rewrite length_firstn; lia).
  assert (H8 : List.length (le_bytes 8 (len raw)) = 8%nat) by apply le_bytes_length.
  split; [|split; [|split]].
  - repeat rewrite length_app. rewrite H5, H8, length_skipn. lia.
  - now apply firstn_app_exact.
  - rewrite (skipn_app_exact 5 _ _ H5). now apply firstn_app_exact.
  - rewrite app_assoc. apply skipn_app_exact.
    rewrite length_app, H5, H8. reflexivity.
Qed.

(** *** A triangle count that does not fit 16 bits *)

(** After the warning, the name length and the name are written; packing the
    count then raises, and the loop is left. *)
Lemma write_header_loop_overflow {um : bool} {obj : Object} (rest : list Object)
    {mesh : Mesh} (w : world) :
  resolve um obj = Some mesh ->
  len (encode_utf8 (name obj)) < 2 ^ 32 ->
  2 ^ 16 <= num_tris mesh ->
  write_header_loop um (obj :: rest) w
  = (Raises struct_error,
     mk_world (buffer w ++ le_bytes 4 (len (encode_utf8 (name obj))) ++ encode_utf8 (name obj))
              (reports w ++ [("WARNING"%string, too_many_triangles obj)])
              (files w)).
Proof.
  intros Hres Hname Htris. unfold resolve in Hres.
  cbn [write_header_loop].
  destruct (mesh_owner_to_mesh um obj) as [|[m|]]; try discriminate.
  inversion Hres; subst m. fold (num_tris mesh).
  pose proof Htris as Hleb. apply N.leb_le in Hleb. rewrite Hleb.
  unfold struct_pack_I, struct_pack_H.
  rewrite (pack_unsigned_fits 4 Hname).
  rewrite (pack_unsigned_overflow 2 (num_tris mesh) Htris).
  unfold bind, ret, lift, buffer_write, report. cbn.
  now rewrite <- app_assoc.
Qed.

(** The same at any place of the list: the objects before the dense one
    get their metadata blocks, then the header pass ends with the
    exception. *)
Lemma write_header_overflow (um : bool) (pre : list Object) (obj : Object)
    (rest : list Object) (mesh : Mesh) (w : world) :
  Forall (header_ok um) pre ->
  resolve um obj = Some mesh ->
  2 ^ 16 <= num_tris mesh ->
  len (encode_utf8 (name obj)) < 2 ^ 32 ->
  count_MESH (pre ++ obj :: rest) < 2 ^ 32 ->
  write_header (pre ++ obj :: rest) um w
  = (Raises struct_error,
     mk_world (buffer w ++ preamble ++ le_bytes 4 (count_MESH (pre ++ obj :: rest))
                 ++ List.concat (map (object_metadata um) pre)
                 ++ le_bytes 4 (len (encode_utf8 (name obj))) ++ encode_utf8 (name obj))
              (reports w ++ [("WARNING"%string, too_many_triangles obj)])
              (files w)).
Proof.
  intros Hpre Hres Htris Hname Hcount.
  rewrite (write_header_run um w Hcount).
  rewrite (write_header_loop_prefix (obj :: rest) _ Hpre).
  rewrite (write_header_loop_overflow rest _ Hres Hname Htris).
  unfold emit. cbn [buffer reports files].
  now repeat rewrite <- app_assoc.
Qed.

Lemma resolve_None (um : bool) (obj : Object) :
  mesh_owner_to_mesh um obj = to_mesh_raises
  \/ mesh_owner_to_mesh um obj = to_mesh_returns None ->
  resolve um obj = None.
Proof. unfold resolve. now intros [-> | ->]. Qed.

Lemma count_MESH_app (l1 l2 : list Object) :
  count_MESH (l1 ++ l2) = count_MESH l1 + count_MESH l2.
Proof.
  unfold count_MESH, len. rewrite filter_app, length_app. lia.
Qed.

Lemma count_MESH_all (l : list Object) :
  Forall (fun obj => is_MESH obj = true) l -> count_MESH l = len l.
Proof.
  unfold count_MESH, len. induction 1 as [|obj l Hobj _ IH]; cbn; [reflexivity|].
  rewrite Hobj. cbn [List.length]. lia.
Qed.

Lemma count_MESH_exists (l : list Object) :
  Exists (fun obj => is_MESH obj = true) l -> 0 < count_MESH l.
Proof.
  unfold count_MESH, len. induction 1 as [obj l Hobj | obj l _ IH]; cbn.
  - rewrite Hobj. cbn [List.length]. lia.
  - destruct (is_MESH obj); cbn [List.length]; lia.
Qed.

End Writers.

(** ** The claims *)

Section Claims.
Context {SP : SinglePrecision} {BP : Bpy} {LZ : Lzma}.

(** C1: for an object of at least 65536 triangles, [write_header] does not
    write a truncated 16-bit count and go on.  It reports the warning, writes
    the name length and the name, and then [struct.pack] raises
    [struct.error]: the count field is never written, the objects after it
    are not visited, and the exception leaves [write_header]. *)
Theorem triangle_count_overflow_raises (um : bool) (pre : list Object) (obj : Object)
    (rest : list Object) (mesh : Mesh) (w : world) :
  Forall (header_ok um) pre ->
  resolve um obj = Some mesh ->
  2 ^ 16 <= num_tris mesh ->
  len (encode_utf8 (name obj)) < 2 ^ 32 ->
  count_MESH (pre ++ obj :: rest) < 2 ^ 32 ->
  write_header (pre ++ obj :: rest) um w
  = (Raises struct_error,
     mk_world (buffer w ++ preamble ++ le_bytes 4 (count_MESH (pre ++ obj :: rest))
                 ++ List.concat (map (object_metadata um) pre)
                 ++ le_bytes 4 (len (encode_utf8 (name obj))) ++ encode_utf8 (name obj))
              (reports w ++ [("WARNING"%string, too_many_triangles obj)])
              (files w)).
Proof. exact (write_header_overflow um pre obj rest mesh w). Qed.

(** C3: in packed mode the file holds the base64 text of a stream that has
    the length of the LZMA-alone stream of the raw buffer, its bytes 0 to 4
    and its bytes from 13 on, and the length of the raw buffer as a 64-bit
    little-endian integer in bytes 5 to 12; decoding the base64 text gives
    that stream back, and the eight bytes at offset 5 read as the length of
    the raw buffer. *)
Theorem packed_stream_carries_raw_length (path : string) (objects : list Object)
    (gm : Matrix) (um : bool) (w w1 : world) :
  write_sfmesh_raw objects gm um (fresh w) = (Returns tt, w1) ->
  len (buffer w1) < 2 ^ 64 ->
  exists stream w2,
    write_sfmesh path objects gm um false w = (Returns tt, w2)
    /\ fs_read path (files w2) = Some (return_quote ++ b64encode stream ++ [double_quote])
    /\ List.length stream = List.length (lzma_compress (buffer w1))
    /\ firstn 5 stream = firstn 5 (lzma_compress (buffer w1))
    /\ firstn 8 (skipn 5 stream) = le_bytes 8 (len (buffer w1))
    /\ skipn 13 stream = skipn 13 (lzma_compress (buffer w1))
    /\ b64decode (b64encode stream) = Some stream
    /\ le_value (firstn 8 (skipn 5 stream)) = len (buffer w1).
Proof.
  intros Hraw Hsize.
  destruct (patched_layout (buffer w1)) as [Hlen [Hhead [Hfield Htail]]].
  eexists (patched (buffer w1)), _.
  split; [exact (write_sfmesh_packed_mode path objects gm um w w1 Hraw Hsize)|].
  cbn [files]. rewrite fs_read_head.
  repeat (split; [assumption || reflexivity|]).
  split; [apply b64decode_b64encode|].
  rewrite Hfield. now apply le_value_le_bytes.
Qed.

(** C4 (amended): in packed mode the file holds exactly the seven bytes of
    [return] and a space, a double quote (eight bytes of prefix in all), the
    base64 encoding of the patched compressed stream, and a closing double
    quote. *)
Theorem packed_file_layout (path : string) (objects : list Object)
    (gm : Matrix) (um : bool) (w w1 : world) :
  write_sfmesh_raw objects gm um (fresh w) = (Returns tt, w1) ->
  len (buffer w1) < 2 ^ 64 ->
  exists w2,
    write_sfmesh path objects gm um false w = (Returns tt, w2)
    /\ fs_read path (files w2)
       = Some (list_byte_of_string "return " ++ [double_quote]
                 ++ b64encode (patched (buffer w1)) ++ [double_quote])
    /\ List.length (list_byte_of_string "return " ++ [double_quote]) = 8%nat.
Proof.
  intros Hraw Hsize. eexists.
  split; [exact (write_sfmesh_packed_mode path objects gm um w w1 Hraw Hsize)|].
  cbn [files]. rewrite fs_read_head. unfold return_quote.
  split; [now rewrite <- app_assoc | reflexivity].
Qed.

(** C5: writing a triangle corner appends exactly 44 bytes: the packed
    position x, y, z, then normal x, y, z, then UV x, y, then tangent x, y,
    z, four bytes each, whatever the float values are. *)
Theorem vertex_appends_44_bytes (mesh : Mesh) (loop_index : nat) (loop : MeshLoop)
    (vertex : MeshVertex) (data : list Vector2) (uv : Vector2) (w : world) :
  nth_error (loops mesh) loop_index = Some loop ->
  nth_error (vertices mesh) (vertex_index loop) = Some vertex ->
  uv_layers_active mesh = Some data ->
  nth_error data loop_index = Some uv ->
  let record :=
    pack_f (x (co vertex)) ++ pack_f (y (co vertex)) ++ pack_f (z (co vertex))
    ++ pack_f (x (normal vertex)) ++ pack_f (y (normal vertex)) ++ pack_f (z (normal vertex))
    ++ pack_f (uv_x uv) ++ pack_f (uv_y uv)
    ++ pack_f (x (tangent loop)) ++ pack_f (y (tangent loop)) ++ pack_f (z (tangent loop)) in
  write_vertex mesh loop_index w
  = (Returns tt, mk_world (buffer w ++ record) (reports w) (files w))
  /\ List.length record = 44%nat.
Proof.
  intros E1 E2 E3 E4 record.
  assert (Hrec : vertex_record mesh loop_index = Some record).
  { unfold vertex_record. now rewrite E1, E2, E3, E4. }
  split.
  - exact (write_vertex_record mesh loop_index record w Hrec).
  - exact (vertex_record_length mesh loop_index record Hrec).
Qed.

(** C6: the corners of a triangle are written last loop first: for the loops
    [a], [b], [c] the buffer receives the record of [c], then that of [b],
    then that of [a]. *)
Theorem triangle_corners_reversed (mesh : Mesh) (triangle : MeshLoopTriangle)
    (a b c : nat) (ra rb rc : list byte) (w : world) :
  tri_loops triangle = [a; b; c] ->
  vertex_record mesh a = Some ra ->
  vertex_record mesh b = Some rb ->
  vertex_record mesh c = Some rc ->
  write_triangle mesh triangle w
  = (write_vertex mesh c ;; write_vertex mesh b ;; write_vertex mesh a) w
  /\ write_triangle mesh triangle w
     = (Returns tt, mk_world (buffer w ++ rc ++ rb ++ ra) (reports w) (files w)).
Proof.
  intros Hloops Ha Hb Hc.
  assert (Hseq : write_triangle mesh triangle w
                 = (write_vertex mesh c ;; write_vertex mesh b ;; write_vertex mesh a) w).
  { unfold write_triangle. rewrite Hloops. cbn [rev app for_each].
    unfold bind.
    destruct (write_vertex mesh c w) as [[[]|e] w1]; [|reflexivity].
    destruct (write_vertex mesh b w1) as [[[]|e] w2]; [|reflexivity].
    destruct (write_vertex mesh a w2) as [[[]|e] w3]; reflexivity. }
  split; [exact Hseq|].
  rewrite Hseq.
  rewrite (bind_returns _ _ (write_vertex_record mesh c rc w Hc)).
  rewrite (bind_returns _ _ (write_vertex_record mesh b rb _ Hb)).
  rewrite (write_vertex_record mesh a ra _ Ha).
  repeat rewrite emit_emit. unfold emit.
  now repeat rewrite <- app_assoc.
Qed.

(** C7: a scene of one object of type MESH named Cube with 12 triangles
    gives the raw buffer 01 00 00 00 00 00 00 01 00 00 00, then 04 00 00 00,
    then the four bytes of the name, then 0C 00, then a body of 1584
    bytes. *)
Theorem cube_scene_raw_buffer (gm : Matrix) (um : bool) (obj : Object)
    (mesh mesh' : Mesh) (body : list byte) (w : world) :
  type obj = "MESH"%string ->
  name obj = "Cube"%string ->
  resolve um obj = Some mesh ->
  num_tris mesh = 12 ->
  prepare_mesh (matmul gm (matrix_world obj)) mesh = Returns mesh' ->
  List.length (loop_triangles mesh') = 12%nat ->
  Forall (fun t => List.length (tri_loops t) = 3%nat) (loop_triangles mesh') ->
  mesh_body mesh' = Some body ->
  write_sfmesh_raw [obj] gm um (fresh w)
  = (Returns tt,
     mk_world ([x01; x00; x00; x00; x00; x00; x00; x01; x00; x00; x00]
                 ++ [x04; x00; x00; x00] ++ list_byte_of_string "Cube"
                 ++ [x0c; x00] ++ body)
              (reports w) (files w))
  /\ List.length body = 1584%nat.
Proof.
  intros Htype Hname Hres Htris Hprep Hlen H3 Hbody.
  assert (Hob : object_body gm um obj = Some body).
  { unfold object_body. now rewrite Hres, Hprep. }
  assert (Hh : Forall (header_ok um) [obj]).
  { constructor; [|constructor]. exists mesh.
    rewrite Hname, Htris. split; [exact Hres | split; reflexivity]. }
  assert (Hb : Forall (body_ok gm um) [obj]).
  { constructor; [|constructor]. now exists body. }
  assert (Hcount : count_MESH [obj] = 1).
  { unfold count_MESH, is_MESH. cbn [filter]. now rewrite Htype. }
  split.
  - pose proof (write_sfmesh_raw_run gm um [obj] [] (fresh w) Hh Hb I) as Hrun.
    rewrite app_nil_r in Hrun. rewrite Hrun by (rewrite Hcount; reflexivity).
    unfold raw_stream, emit, fresh. cbn [buffer reports files app map List.concat].
    rewrite app_nil_r, Hcount.
    unfold object_metadata, body_bytes. rewrite Hres, Hob, Hname, Htris.
    repeat rewrite app_nil_r. reflexivity.
  - rewrite (mesh_body_length mesh' body H3 Hbody), Hlen. reflexivity.
Qed.

(** C8: when mesh resolution fails for an object (it raises, or it returns
    no mesh) and the objects before it can be written, the header pass and
    the body pass both return at that object without an exception; the buffer
    holds the count, the metadata blocks and the body blocks of the earlier
    objects and nothing of the failing or later ones, and [write_sfmesh]
    writes that buffer (raw mode) or its compressed, patched and encoded form
    (packed mode) to the file. *)
Theorem resolution_failure_truncates (path : string) (gm : Matrix) (um : bool)
    (pre : list Object) (bad : Object) (post : list Object) (w : world) :
  Forall (header_ok um) pre ->
  Forall (body_ok gm um) pre ->
  mesh_owner_to_mesh um bad = to_mesh_raises
  \/ mesh_owner_to_mesh um bad = to_mesh_returns None ->
  count_MESH (pre ++ bad :: post) < 2 ^ 32 ->
  len (raw_stream gm um pre (bad :: post)) < 2 ^ 64 ->
  let objects := pre ++ bad :: post in
  let raw := raw_stream gm um pre (bad :: post) in
  write_header objects um w
  = (Returns tt,
     emit (preamble ++ le_bytes 4 (count_MESH objects)
             ++ List.concat (map (object_metadata um) pre)) w)
  /\ write_objects objects gm um w
     = (Returns tt, emit (List.concat (map (body_bytes gm um) pre)) w)
  /\ write_sfmesh path objects gm um true w
     = (Returns tt, mk_world raw (reports w) ((path, raw) :: fs_remove path (files w)))
  /\ write_sfmesh path objects gm um false w
     = (Returns tt,
        mk_world raw (reports w)
          ((path, return_quote ++ b64encode (patched raw) ++ [double_quote])
             :: fs_remove path (files w))).
Proof.
  intros Hh Hb Hbad Hcount Hsize objects raw.
  assert (Hs : stops um (bad :: post)) by exact (resolve_None um bad Hbad).
  assert (Hrun : write_sfmesh_raw objects gm um (fresh w)
                 = (Returns tt, mk_world raw (reports w) (files w))).
  { unfold objects. rewrite (write_sfmesh_raw_run gm um pre (bad :: post) (fresh w) Hh Hb Hs Hcount).
    reflexivity. }
  split; [|split; [|split]].
  - unfold objects.
    rewrite (write_header_run um w Hcount), (write_header_loop_prefix (bad :: post) _ Hh).
    rewrite (write_header_loop_stops _ Hs), emit_emit.
    now rewrite <- app_assoc.
  - unfold objects, write_objects.
    rewrite (write_objects_loop_prefix (bad :: post) _ Hb).
    now rewrite (write_objects_loop_stops gm _ Hs).
  - exact (write_sfmesh_raw_mode path objects gm um w _ Hrun).
  - exact (write_sfmesh_packed_mode path objects gm um w _ Hrun Hsize).
Qed.

(** C9: in the header pass an object whose triangle count is below 65536 has
    its count written as it is (65535 as FF FF) with no report, and the loop
    goes on; an object of at least 65536 triangles has the warning reported,
    but the export does not go on after it: [write_sfmesh] ends with
    [struct.error], and no file is written. *)
Theorem warning_then_struct_error (path : string) (gm : Matrix) (um raw_file : bool)
    (pre : list Object) (obj : Object) (rest : list Object) (mesh : Mesh) (w : world) :
  Forall (header_ok um) pre ->
  resolve um obj = Some mesh ->
  len (encode_utf8 (name obj)) < 2 ^ 32 ->
  count_MESH (pre ++ obj :: rest) < 2 ^ 32 ->
  (num_tris mesh < 2 ^ 16 ->
     write_header_loop um (obj :: rest) w
     = write_header_loop um rest
         (mk_world (buffer w ++ metadata_block (encode_utf8 (name obj)) (num_tris mesh))
                   (reports w) (files w)))
  /\ (num_tris mesh = 65535 -> le_bytes 2 (num_tris mesh) = [xff; xff])
  /\ (2 ^ 16 <= num_tris mesh ->
      exists w',
        write_sfmesh path (pre ++ obj :: rest) gm um raw_file w = (Raises struct_error, w')
        /\ reports w' = reports w ++ [("WARNING"%string, too_many_triangles obj)]
        /\ files w' = files w).
Proof.
  intros Hpre Hres Hname Hcount. split; [|split].
  - intros Htris. exact (write_header_loop_step rest w Hres Hname Htris).
  - intros ->. reflexivity.
  - intros Htris. eexists. split; [|split].
    + apply write_sfmesh_raises. unfold write_sfmesh_raw.
      apply bind_raises.
      exact (write_header_overflow um pre obj rest mesh (fresh w) Hpre Hres Htris Hname Hcount).
    + reflexivity.
    + reflexivity.
Qed.

(** C10 (amended): the count field is computed from the whole list and
    written before the per-object loop.  When mesh resolution fails at an
    object, the header holds the count of all objects of type MESH,
    those at and after the failure point included, followed by one metadata
    block for each object before the failure point, whatever its type.  The
    count exceeds the number of blocks when every object before the failure
    point has type MESH and the failing object or a later one has type
    MESH. *)
Theorem count_covers_whole_list (um : bool) (pre : list Object) (bad : Object)
    (post : list Object) (w : world) :
  Forall (header_ok um) pre ->
  resolve um bad = None ->
  count_MESH (pre ++ bad :: post) < 2 ^ 32 ->
  write_header (pre ++ bad :: post) um w
  = (Returns tt,
     emit (preamble ++ le_bytes 4 (count_MESH (pre ++ bad :: post))
             ++ List.concat (map (object_metadata um) pre)) w)
  /\ count_MESH (pre ++ bad :: post) = count_MESH pre + count_MESH (bad :: post)
  /\ List.length (map (object_metadata um) pre) = List.length pre
  /\ (Forall (fun obj => is_MESH obj = true) pre ->
      Exists (fun obj => is_MESH obj = true) (bad :: post) ->
      len pre < count_MESH (pre ++ bad :: post)).
Proof.
  intros Hh Hbad Hcount. split; [|split; [|split]].
  - rewrite (write_header_run um w Hcount), (write_header_loop_prefix (bad :: post) _ Hh).
    rewrite (write_header_loop_stops (rest := bad :: post) _ Hbad), emit_emit.
    now rewrite <- app_assoc.
  - apply count_MESH_app.
  - apply length_map.
  - intros Hall Hex. rewrite count_MESH_app, (count_MESH_all pre Hall).
    pose proof (count_MESH_exists _ Hex). lia.
Qed.

(** All objects resolve and can be written: the header holds the count of
    the objects of type MESH and then one metadata block per object of the
    list, of any type, and the body holds one block per object of the
    list. *)
Lemma every_object_gets_blocks (gm : Matrix) (um : bool) (objects : list Object)
    (w : world) :
  Forall (header_ok um) objects ->
  Forall (body_ok gm um) objects ->
  count_MESH objects < 2 ^ 32 ->
  write_sfmesh_raw objects gm um w
  = (Returns tt,
     emit (preamble ++ le_bytes 4 (count_MESH objects)
             ++ List.concat (map (object_metadata um) objects)
             ++ List.concat (map (body_bytes gm um) objects)) w).
Proof.
  intros Hh Hb Hcount.
  pose proof (write_sfmesh_raw_run gm um objects [] w Hh Hb I) as Hrun.
  unfold raw_stream in Hrun. rewrite app_nil_r in Hrun. now apply Hrun.
Qed.

End Claims.

(** ** The claims on concrete scenes *)

#[local] Existing Instance bits32.
#[local] Existing Instance plain_bpy.
#[local] Existing Instance stored_lzma.

Lemma soup_triangles_have_three_loops (n : nat) :
  Forall (fun t => List.length (tri_loops t) = 3%nat) (loop_triangles (soup n)).
Proof.
  unfold soup. cbn [loop_triangles].
  apply Forall_forall. intros t Hin.
  apply in_map_iff in Hin. destruct Hin as [i [<- _]]. reflexivity.
Qed.

Lemma cube_header_ok : Forall (header_ok false) [cube].
Proof.
  constructor; [|constructor]. exists (soup 12).
  split; [reflexivity | split; vm_compute; reflexivity].
Qed.

Lemma cube_body_ok : Forall (body_ok identity false) [cube].
Proof.
  constructor; [|constructor]. exists (body_bytes identity false cube).
  vm_compute. reflexivity.
Qed.

Lemma dense_overflows : 2 ^ 16 <= num_tris (flat (Nat.pow 2 16)).
Proof. apply N.leb_le. vm_compute. reflexivity. Qed.

Lemma plane_header_ok : Forall (header_ok false) [plane].
Proof.
  constructor; [|constructor]. exists (soup 2).
  split; [reflexivity | split; vm_compute; reflexivity].
Qed.

Lemma triangle_count_overflow_raises_witness :
  write_header [plane; dense; cube] false blank
  = (Raises struct_error,
     mk_world (preamble ++ [x03; x00; x00; x00]
                 ++ ([x05; x00; x00; x00] ++ list_byte_of_string "Plane" ++ [x02; x00])
                 ++ [x05; x00; x00; x00] ++ list_byte_of_string "Dense")
              [("WARNING"%string, "Object Dense has too many triangles!"%string)]
              []).
Proof.
  exact (triangle_count_overflow_raises false [plane] dense [cube] (flat (Nat.pow 2 16)) blank
           plane_header_ok eq_refl dense_overflows eq_refl eq_refl).
Defined.

(** C2: a curve that resolves to a mesh is not counted, the count field
    is 0, and yet its metadata block and its body block are written: the
    loops of [write_header] and [write_objects] do not skip objects whose
    type is not MESH. *)
Theorem curve_written_but_not_counted :
  is_MESH curve = false
  /\ resolve false curve = Some (soup 1)
  /\ write_sfmesh_raw [curve] identity false blank
     = (Returns tt,
        mk_world (preamble ++ [x00; x00; x00; x00]
                    ++ ([x05; x00; x00; x00] ++ list_byte_of_string "Curve" ++ [x01; x00])
                    ++ body_bytes identity false curve)
                 [] [])
  /\ List.length (body_bytes identity false curve) = 132%nat.
Proof.
  split; [reflexivity|]. split; [reflexivity|].
  split; vm_compute; reflexivity.
Qed.

Lemma cube_scene_runs :
  write_sfmesh_raw [cube] identity false (fresh blank)
  = (Returns tt, mk_world (raw_stream identity false [cube] []) [] []).
Proof.
  exact (write_sfmesh_raw_run identity false [cube] [] (fresh blank)
           cube_header_ok cube_body_ok I ltac:(vm_compute; reflexivity)).
Qed.

Lemma cube_scene_size : len (raw_stream identity false [cube] []) < 2 ^ 64.
Proof. vm_compute. reflexivity. Qed.

Lemma packed_stream_carries_raw_length_witness :
  exists stream w2,
    write_sfmesh "scene.txt" [cube] identity false false blank = (Returns tt, w2)
    /\ fs_read "scene.txt" (files w2) = Some (return_quote ++ b64encode stream ++ [double_quote])
    /\ b64decode (b64encode stream) = Some stream
    /\ le_value (firstn 8 (skipn 5 stream)) = len (raw_stream identity false [cube] []).
Proof.
  destruct (packed_stream_carries_raw_length "scene.txt" [cube] identity false blank _
              cube_scene_runs cube_scene_size)
    as [stream [w2 [Hrun [Hfile [_ [_ [_ [_ [Hdec Hval]]]]]]]]].
  exists stream, w2. repeat split; assumption.
Defined.

(** C4 (as stated): for the empty scene the file is not an eight-byte token
    followed by a double quote, the base64 text and a closing double quote:
    the eight bytes written first already end with the opening quote, so the
    file is one byte shorter than that. *)
Lemma packed_file_prefix_contains_quote :
  write_sfmesh_raw [] identity false (fresh blank)
  = (Returns tt, mk_world (preamble ++ [x00; x00; x00; x00]) [] [])
  /\ ~ (exists token w2,
          List.length token = 8%nat
          /\ write_sfmesh "scene.txt" [] identity false false blank = (Returns tt, w2)
          /\ fs_read "scene.txt" (files w2)
             = Some (token ++ [double_quote]
                       ++ b64encode (patched (preamble ++ [x00; x00; x00; x00]))
                       ++ [double_quote])).
Proof.
  assert (Hraw : write_sfmesh_raw [] identity false (fresh blank)
                 = (Returns tt, mk_world (preamble ++ [x00; x00; x00; x00]) [] []))
    by reflexivity.
  split; [exact Hraw|].
  intros [token [w2 [Hlen [Hrun Hread]]]].
  rewrite (write_sfmesh_packed_mode "scene.txt" [] identity false blank _ Hraw
             ltac:(vm_compute; reflexivity)) in Hrun.
  inversion Hrun; subst w2. clear Hrun.
  cbn [files buffer] in Hread. rewrite fs_read_head in Hread.
  injection Hread as Heq.
  apply (f_equal (@List.length byte)) in Heq.
  repeat rewrite length_app in Heq. rewrite Hlen in Heq.
  cbn [List.length return_quote] in Heq.
  change (List.length return_quote) with 8%nat in Heq. lia.
Qed.

Lemma packed_file_layout_witness :
  exists w2,
    write_sfmesh "scene.txt" [cube] identity false false blank = (Returns tt, w2)
    /\ fs_read "scene.txt" (files w2)
       = Some (list_byte_of_string "return " ++ [double_quote]
                 ++ b64encode (patched (raw_stream identity false [cube] [])) ++ [double_quote]).
Proof.
  destruct (packed_file_layout "scene.txt" [cube] identity false blank _
              cube_scene_runs cube_scene_size) as [w2 [Hrun [Hfile _]]].
  exists w2. split; assumption.
Defined.

Lemma vertex_appends_44_bytes_witness :
  exists record,
    write_vertex (soup 1) 2 blank = (Returns tt, mk_world record [] [])
    /\ List.length record = 44%nat.
Proof.
  destruct (vertex_appends_44_bytes (soup 1) 2 (soup_loop 2) (soup_vertex 2)
              (map soup_uv (seq 0 3)) (soup_uv 2) blank
              eq_refl eq_refl eq_refl eq_refl) as [Hrun Hlen].
  eexists. split; [exact Hrun | exact Hlen].
Defined.

Lemma triangle_corners_reversed_witness :
  write_triangle (soup 1) (soup_triangle 0) blank
  = (Returns tt,
     mk_world (corner_bytes (soup_vertex 2) (soup_uv 2) (soup_loop 2)
                 ++ corner_bytes (soup_vertex 1) (soup_uv 1) (soup_loop 1)
                 ++ corner_bytes (soup_vertex 0) (soup_uv 0) (soup_loop 0))
              [] []).
Proof.
  exact (proj2 (triangle_corners_reversed (soup 1) (soup_triangle 0) 0 1 2 _ _ _ blank
                  eq_refl eq_refl eq_refl eq_refl)).
Defined.

Lemma cube_scene_raw_buffer_witness :
  write_sfmesh_raw [cube] identity false (fresh blank)
  = (Returns tt,
     mk_world ([x01; x00; x00; x00; x00; x00; x00; x01; x00; x00; x00]
                 ++ [x04; x00; x00; x00] ++ list_byte_of_string "Cube"
                 ++ [x0c; x00] ++ body_bytes identity false cube)
              [] [])
  /\ List.length (body_bytes identity false cube) = 1584%nat.
Proof.
  apply (cube_scene_raw_buffer identity false cube (soup 12) (soup 12)
           (body_bytes identity false cube) blank).
  - reflexivity.
  - reflexivity.
  - reflexivity.
  - reflexivity.
  - reflexivity.
  - reflexivity.
  - exact (soup_triangles_have_three_loops 12).
  - vm_compute. reflexivity.
Defined.

Lemma resolution_failure_truncates_witness :
  write_sfmesh "scene.sfmesh" [cube; camera; plane] identity false true blank
  = (Returns tt,
     mk_world (raw_stream identity false [cube] [camera; plane]) []
              [("scene.sfmesh"%string, raw_stream identity false [cube] [camera; plane])]).
Proof.
  exact (proj1 (proj2 (proj2
    (resolution_failure_truncates "scene.sfmesh" identity false [cube] camera [plane] blank
       cube_header_ok cube_body_ok (or_introl eq_refl)
       ltac:(vm_compute; reflexivity) ltac:(vm_compute; reflexivity))))).
Defined.

Lemma warning_then_struct_error_witness :
  exists w',
    write_sfmesh "scene.txt" [plane; dense; cube] identity false false blank
    = (Raises struct_error, w')
    /\ reports w' = [("WARNING"%string, "Object Dense has too many triangles!"%string)]
    /\ files w' = [].
Proof.
  exact (proj2 (proj2
    (warning_then_struct_error "scene.txt" identity false false [plane] dense [cube]
       (flat (Nat.pow 2 16)) blank plane_header_ok eq_refl eq_refl eq_refl)) dense_overflows).
Defined.

(** C10 (as stated): for a scene that holds only a camera, resolution fails
    at the first object; the header is the preamble and a count of 0, with
    no metadata block, so the declared count does not exceed the number of
    blocks. *)
Lemma camera_scene_count_equals_blocks :
  mesh_owner_to_mesh false camera = to_mesh_raises
  /\ write_header [camera] false blank
     = (Returns tt,
        mk_world ([x01; x00; x00; x00; x00; x00; x00] ++ [x00; x00; x00; x00]) [] [])
  /\ count_MESH [camera] = 0
  /\ ~ (len (@nil Object) < count_MESH ([] ++ camera :: [])).
Proof.
  split; [reflexivity|]. split; [reflexivity|]. split; [reflexivity|].
  vm_compute. discriminate.
Qed.

Lemma count_covers_whole_list_witness :
  write_header [cube; camera; plane] false blank
  = (Returns tt,
     mk_world (preamble ++ [x02; x00; x00; x00]
                 ++ metadata_block (list_byte_of_string "Cube") 12) [] [])
  /\ len [cube] < count_MESH [cube; camera; plane].
Proof.
  destruct (count_covers_whole_list false [cube] camera [plane] blank
              cube_header_ok eq_refl ltac:(vm_compute; reflexivity))
    as [Hrun [_ [_ Hexceeds]]].
  split.
  - exact Hrun.
  - apply Hexceeds.
    + repeat constructor.
    + apply Exists_cons_tl, Exists_cons_hd. reflexivity.
Defined.

(** ** Checks of the library models *)

Example b64_ab : b64encode (list_byte_of_string "ab") = list_byte_of_string "YWI=".
Proof. reflexivity. Qed.

Example b64_roundtrip_demo :
  b64decode (b64encode (list_byte_of_string "Cube!")) = Some (list_byte_of_string "Cube!").
Proof. reflexivity. Qed.

Example pack_H_65535 : struct_pack_H 65535 = Returns [xff; xff].
Proof. reflexivity. Qed.

Example pack_H_65536 : struct_pack_H 65536 = Raises struct_error.
Proof. reflexivity. Qed.

(** An object whose [to_mesh] returns [None] ends both passes at once: the
    cube after it is counted and not written. *)
Example hollow_first :
  write_sfmesh_raw [hollow; cube] identity false blank
  = (Returns tt, mk_world (preamble ++ [x02; x00; x00; x00]) [] []).
Proof. reflexivity. Qed.

(** The empty scene: eleven bytes of raw buffer, and a packed size field
    that reads 11. *)
Example empty_scene :
  write_sfmesh_raw [] identity false blank
  = (Returns tt, mk_world [x01; x00; x00; x00; x00; x00; x00; x00; x00; x00; x00] [] [])
  /\ le_value (firstn 8 (skipn 5 (patched (preamble ++ [x00; x00; x00; x00])))) = 11.
Proof. split; reflexivity. Qed.

(** * Further properties of the exporter *)

(** ** What a run never changes *)

Section Frame.
Context {SP : SinglePrecision} {BP : Bpy} {LZ : Lzma}.

Lemma extends_refl (w : world) : extends w w.
Proof.
  split; [|split].
  - exists []. now rewrite app_nil_r.
  - exists []. split; [now rewrite app_nil_r | constructor].
  - reflexivity.
Qed.

Lemma extends_trans (w1 w2 w3 : world) : extends w1 w2 -> extends w2 w3 -> extends w1 w3.
Proof.
  intros [[b1 Hb1] [[r1 [Hr1 Hw1]] Hf1]] [[b2 Hb2] [[r2 [Hr2 Hw2]] Hf2]].
  split; [|split].
  - exists (b1 ++ b2). now rewrite Hb2, Hb1, app_assoc.
  - exists (r1 ++ r2). split; [now rewrite Hr2, Hr1, app_assoc|].
    apply Forall_app. now split.
  - now rewrite Hf2.
Qed.

Lemma bind_extends {A B : Type} (m : M A) (k : A -> M B) :
  (forall w, extends w (snd (m w))) ->
  (forall a w, extends w (snd (k a w))) ->
  forall w, extends w (snd (bind m k w)).
Proof.
  intros Hm Hk w. unfold bind. specialize (Hm w).
  destruct (m w) as [[a|e] w1]; cbn [snd] in *.
  - exact (extends_trans _ _ _ Hm (Hk a w1)).
  - exact Hm.
Qed.

Lemma ret_extends {A : Type} (a : A) (w : world) : extends w (snd (ret a w)).
Proof. apply extends_refl. Qed.

Lemma raise_extends {A : Type} (e : exn) (w : world) : extends w (snd (@raise A e w)).
Proof. apply extends_refl. Qed.

Lemma lift_extends {A : Type} (r : result A) (w : world) : extends w (snd (lift r w)).
Proof. apply extends_refl. Qed.

Lemma buffer_write_extends (bs : list byte) (w : world) :
  extends w (snd (buffer_write bs w)).
Proof.
  split; [|split]; cbn.
  - now exists bs.
  - exists []. split; [now rewrite app_nil_r | constructor].
  - reflexivity.
Qed.

Lemma warning_extends (message : string) (w : world) :
  extends w (snd (report "WARNING" message w)).
Proof.
  split; [|split]; cbn.
  - exists []. now rewrite app_nil_r.
  - exists [("WARNING"%string, message)]. split; [reflexivity|].
    constructor; [reflexivity | constructor].
  - reflexivity.
Qed.

Lemma for_each_extends {A : Type} (body : A -> M unit) (l : list A) :
  (forall a w, extends w (snd (body a w))) ->
  forall w, extends w (snd (for_each l body w)).
Proof.
  intros Hbody. induction l as [|a l IH]; intros w; cbn [for_each].
  - apply ret_extends.
  - apply bind_extends; [apply Hbody | intros _; apply IH].
Qed.

Lemma index_extends {A : Type} (l : list A) (i : nat) (w : world) :
  extends w (snd (index l i w)).
Proof. unfold index. destruct (nth_error l i); apply extends_refl. Qed.

Lemma write_vertex_extends (mesh : Mesh) (loop_index : nat) (w : world) :
  extends w (snd (write_vertex mesh loop_index w)).
Proof.
  revert w. unfold write_vertex.
  apply bind_extends; [apply index_extends | intros loop].
  apply bind_extends; [apply index_extends | intros vertex].
  apply bind_extends.
  { intros w. destruct (uv_layers_active mesh); apply extends_refl. }
  intros data.
  apply bind_extends; [apply index_extends | intros uv].
  repeat (apply bind_extends; [apply buffer_write_extends | intros _]).
  apply buffer_write_extends.
Qed.

Lemma write_triangle_extends (mesh : Mesh) (triangle : MeshLoopTriangle) (w : world) :
  extends w (snd (write_triangle mesh triangle w)).
Proof.
  revert w. unfold write_triangle.
  apply for_each_extends. intros a w. apply write_vertex_extends.
Qed.

Lemma write_header_loop_extends (um : bool) (objects : list Object) (w : world) :
  extends w (snd (write_header_loop um objects w)).
Proof.
  revert w. induction objects as [|obj rest IH]; intros w; cbn [write_header_loop].
  - apply ret_extends.
  - destruct (mesh_owner_to_mesh um obj) as [|[mesh|]]; try apply ret_extends.
    cbv zeta. revert w.
    apply bind_extends.
    { intros w. destruct (2 ^ 16 <=? _); [apply warning_extends | apply ret_extends]. }
    intros _.
    apply bind_extends; [apply lift_extends | intros bs].
    apply bind_extends; [apply buffer_write_extends | intros _].
    apply bind_extends; [apply buffer_write_extends | intros _].
    apply bind_extends; [apply lift_extends | intros bs'].
    apply bind_extends; [apply buffer_write_extends | intros _].
    exact IH.
Qed.

Lemma write_header_extends (objects : list Object) (um : bool) (w : world) :
  extends w (snd (write_header objects um w)).
Proof.
  revert w. unfold write_header.
  apply bind_extends; [apply lift_extends | intros bs].
  apply bind_extends; [apply buffer_write_extends | intros _].
  apply bind_extends; [apply lift_extends | intros bs'].
  apply bind_extends; [apply buffer_write_extends | intros _].
  cbv zeta.
  apply bind_extends; [apply lift_extends | intros bs''].
  apply bind_extends; [apply buffer_write_extends | intros _].
  intros w. apply write_header_loop_extends.
Qed.

Lemma write_objects_loop_extends (gm : Matrix) (um : bool) (objects : list Object)
    (w : world) :
  extends w (snd (write_objects_loop gm um objects w)).
Proof.
  revert w. induction objects as [|obj rest IH]; intros w; cbn [write_objects_loop].
  - apply ret_extends.
  - destruct (mesh_owner_to_mesh um obj) as [|[mesh|]]; try apply ret_extends.
    cbv zeta. revert w.
    apply bind_extends; [apply lift_extends | intros mesh'].
    apply bind_extends; [|intros _; exact IH].
    apply for_each_extends. intros t w. apply write_triangle_extends.
Qed.

Lemma write_sfmesh_raw_extends (objects : list Object) (gm : Matrix) (um : bool)
    (w : world) :
  extends w (snd (write_sfmesh_raw objects gm um w)).
Proof.
  revert w. unfold write_sfmesh_raw, write_objects.
  apply bind_extends.
  - intros w. apply write_header_extends.
  - intros _ w. apply write_objects_loop_extends.
Qed.

(** X4: whatever the objects are and however the run ends (it returns, or
    an exception leaves it), [write_sfmesh_raw] only appends to the buffer,
    only adds reports of level WARNING, and leaves the files alone. *)
Theorem raw_writer_only_appends (objects : list Object) (gm : Matrix) (um : bool)
    (w : world) :
  extends w (snd (write_sfmesh_raw objects gm um w)).
Proof. exact (write_sfmesh_raw_extends objects gm um w). Qed.

Lemma fs_read_remove (p q : string) (fs : filesystem) :
  fs_read p (fs_remove q fs) = if String.eqb q p then None else fs_read p fs.
Proof.
  induction fs as [|[r c] fs IH]; cbn.
  - now destruct (String.eqb q p).
  - destruct (String.eqb r q) eqn:Erq.
    + apply String.eqb_eq in Erq. subst r. rewrite IH.
      now destruct (String.eqb q p).
    + cbn. rewrite IH. destruct (String.eqb r p) eqn:Erp; [|reflexivity].
      apply String.eqb_eq in Erp. subst r. now rewrite String.eqb_sym, Erq.
Qed.

Lemma fs_read_open (p q : string) (content : list byte) (fs : filesystem) :
  fs_read p ((q, content) :: fs_remove q fs)
  = if String.eqb q p then Some content else fs_read p fs.
Proof.
  cbn. rewrite fs_read_remove. now destruct (String.eqb q p).
Qed.

Lemma fs_read_append_other (p q : string) (bs : list byte) (fs : filesystem) :
  String.eqb q p = false -> fs_read p (fs_append q bs fs) = fs_read p fs.
Proof.
  intros Hqp. induction fs as [|[r c] fs IH]; cbn; [reflexivity|].
  destruct (String.eqb r q) eqn:Erq; cbn.
  - apply String.eqb_eq in Erq. subst r. now rewrite Hqp.
  - rewrite IH. reflexivity.
Qed.

Lemma write_sfmesh_frame (path other : string) (objects : list Object)
    (gm : Matrix) (um raw_file : bool) (w : world) :
  other <> path ->
  fs_read other (files (snd (write_sfmesh path objects gm um raw_file w)))
  = fs_read other (files w).
Proof.
  intros Hother.
  assert (Hneq : String.eqb path other = false).
  { apply String.eqb_neq. congruence. }
  unfold write_sfmesh, with_BytesIO.
  pose proof (write_sfmesh_raw_extends objects gm um (mk_world [] (reports w) (files w)))
    as [_ [_ Hfiles]].
  unfold bind at 1.
  destruct (write_sfmesh_raw objects gm um (mk_world [] (reports w) (files w)))
    as [[[]|e] w1]; cbn [snd files] in *; [|now rewrite Hfiles].
  destruct raw_file.
  - unfold bind, getvalue, open_wb, file_write. cbn [snd files buffer reports].
    rewrite fs_read_append_other by exact Hneq.
    rewrite fs_read_open, Hneq. now rewrite Hfiles.
  - unfold bind at 1. unfold getvalue. cbv zeta.
    unfold bind at 1. unfold lift.
    destruct (to_bytes_little (len (buffer w1)) 8) as [size_field|e];
      cbn [snd files]; [|now rewrite Hfiles].
    unfold bind, open_wb, file_write. cbn [snd files buffer reports].
    repeat rewrite fs_read_append_other by exact Hneq.
    rewrite fs_read_open, Hneq. now rewrite Hfiles.
Qed.

(** X3: [write_sfmesh] changes no file but the one at [filepath], in either
    mode and however it ends. *)
Theorem write_sfmesh_touches_one_path (path other : string) (objects : list Object)
    (gm : Matrix) (um raw_file : bool) (w : world) :
  other <> path ->
  fs_read other (files (snd (write_sfmesh path objects gm um raw_file w)))
  = fs_read other (files w).
Proof. exact (write_sfmesh_frame path other objects gm um raw_file w). Qed.

Lemma write_sfmesh_raises_frame (path : string) (objects : list Object)
    (gm : Matrix) (um raw_file : bool) (w w1 : world) (e : exn) :
  write_sfmesh_raw objects gm um (fresh w) = (Raises e, w1) ->
  write_sfmesh path objects gm um raw_file w = (Raises e, w1)
  /\ files w1 = files w.
Proof.
  intros Hraw. split.
  - exact (write_sfmesh_raises path objects gm um raw_file w w1 e Hraw).
  - pose proof (write_sfmesh_raw_extends objects gm um (fresh w)) as [_ [_ Hfiles]].
    rewrite Hraw in Hfiles. exact Hfiles.
Qed.

(** X2: when the raw writer raises, [write_sfmesh] raises the same
    exception before it opens the file: the file system is as it was, in
    either mode. *)
Theorem write_sfmesh_raises_before_open (path : string) (objects : list Object)
    (gm : Matrix) (um raw_file : bool) (w w1 : world) (e : exn) :
  write_sfmesh_raw objects gm um (fresh w) = (Raises e, w1) ->
  write_sfmesh path objects gm um raw_file w = (Raises e, w1)
  /\ files w1 = files w.
Proof. exact (write_sfmesh_raises_frame path objects gm um raw_file w w1 e). Qed.

(** X1: in raw mode the file holds the buffer of the raw writer, byte for
    byte, whatever was at that path before; nothing is compressed or
    wrapped. *)
Theorem raw_mode_file_is_the_buffer (path : string) (objects : list Object)
    (gm : Matrix) (um : bool) (w w1 : world) :
  write_sfmesh_raw objects gm um (fresh w) = (Returns tt, w1) ->
  exists w2,
    write_sfmesh path objects gm um true w = (Returns tt, w2)
    /\ fs_read path (files w2) = Some (buffer w1)
    /\ reports w2 = reports w1.
Proof.
  intros Hraw. eexists. split; [|split].
  - exact (write_sfmesh_raw_mode path objects gm um w w1 Hraw).
  - cbn [files]. apply fs_read_head.
  - reflexivity.
Qed.

End Frame.

(** ** When the raw writer returns, and when it raises *)

Section Outcomes.
Context {SP : SinglePrecision} {BP : Bpy} {LZ : Lzma}.

Lemma write_vertex_cases (mesh : Mesh) (loop_index : nat) (w : world) :
  match nth_error (loops mesh) loop_index with
  | None => write_vertex mesh loop_index w = (Raises IndexError, w)
  | Some loop =>
      match nth_error (vertices mesh) (vertex_index loop) with
      | None => write_vertex mesh loop_index w = (Raises IndexError, w)
      | Some vertex =>
          match uv_layers_active mesh with
          | None => write_vertex mesh loop_index w = (Raises AttributeError, w)
          | Some data =>
              match nth_error data loop_index with
              | None => write_vertex mesh loop_index w = (Raises IndexError, w)
              | Some uv =>
                  write_vertex mesh loop_index w
                  = (Returns tt, emit (corner_bytes vertex uv loop) w)
                  /\ List.length (corner_bytes vertex uv loop) = 44%nat
              end
          end
      end
  end.
Proof.
  destruct (nth_error (loops mesh) loop_index) as [loop|] eqn:E1.
  2:{ unfold write_vertex, index, bind. now rewrite E1. }
  destruct (nth_error (vertices mesh) (vertex_index loop)) as [vertex|] eqn:E2.
  2:{ unfold write_vertex, index, bind. rewrite E1. cbn. now rewrite E2. }
  destruct (uv_layers_active mesh) as [data|] eqn:E3.
  2:{ unfold write_vertex, index, bind. rewrite E1. cbn. rewrite E2. cbn.
      now rewrite E3. }
  destruct (nth_error data loop_index) as [uv|] eqn:E4.
  2:{ unfold write_vertex, index, bind. rewrite E1. cbn. rewrite E2. cbn.
      rewrite E3. cbn. now rewrite E4. }
  split; [|apply corner_bytes_length].
  apply write_vertex_record. unfold vertex_record. now rewrite E1, E2, E3, E4.
Qed.

(** X10: writing a corner is all or nothing.  When the loop, its vertex and
    its UV entry exist, the 44 bytes of the corner are appended; otherwise
    nothing is appended and an exception is raised: [IndexError] for a loop
    index, a vertex index or a UV index out of range, [AttributeError] for a
    mesh without an active UV layer. *)
Theorem write_vertex_all_or_nothing (mesh : Mesh) (loop_index : nat) (w : world) :
  match nth_error (loops mesh) loop_index with
  | None => write_vertex mesh loop_index w = (Raises IndexError, w)
  | Some loop =>
      match nth_error (vertices mesh) (vertex_index loop) with
      | None => write_vertex mesh loop_index w = (Raises IndexError, w)
      | Some vertex =>
          match uv_layers_active mesh with
          | None => write_vertex mesh loop_index w = (Raises AttributeError, w)
          | Some data =>
              match nth_error data loop_index with
              | None => write_vertex mesh loop_index w = (Raises IndexError, w)
              | Some uv =>
                  write_vertex mesh loop_index w
                  = (Returns tt, emit (corner_bytes vertex uv loop) w)
                  /\ List.length (corner_bytes vertex uv loop) = 44%nat
              end
          end
      end
  end.
Proof. exact (write_vertex_cases mesh loop_index w). Qed.

Lemma write_vertex_none (mesh : Mesh) (loop_index : nat) (w : world) :
  vertex_record mesh loop_index = None ->
  exists e w', write_vertex mesh loop_index w = (Raises e, w').
Proof.
  intros Hnone. pose proof (write_vertex_cases mesh loop_index w) as H.
  unfold vertex_record in Hnone.
  destruct (nth_error (loops mesh) loop_index) as [loop|]; [|eauto].
  destruct (nth_error (vertices mesh) (vertex_index loop)) as [vertex|]; [|eauto].
  destruct (uv_layers_active mesh) as [data|]; [|eauto].
  destruct (nth_error data loop_index) as [uv|]; [discriminate | eauto].
Qed.

(** A loop raises when one of its pieces is missing. *)
Lemma for_each_gather_none {A : Type} (f : A -> option (list byte)) (body : A -> M unit)
    (l : list A) :
  (forall a b w, f a = Some b -> body a w = (Returns tt, emit b w)) ->
  (forall a w, f a = None -> exists e w', body a w = (Raises e, w')) ->
  gather f l = None ->
  forall w, exists e w', for_each l body w = (Raises e, w').
Proof.
  intros Hsome Hnone. induction l as [|a l IH]; intros H w; cbn in *; [discriminate|].
  destruct (f a) as [b|] eqn:Ea.
  - rewrite (bind_returns _ _ (Hsome a b w Ea)).
    destruct (gather f l) as [bs|]; [discriminate|]. now apply IH.
  - destruct (Hnone a w Ea) as [e [w' He]].
    exists e, w'. now apply bind_raises.
Qed.

Lemma write_triangle_none (mesh : Mesh) (triangle : MeshLoopTriangle) (w : world) :
  triangle_record mesh triangle = None ->
  exists e w', write_triangle mesh triangle w = (Raises e, w').
Proof.
  intros H. unfold write_triangle.
  apply (for_each_gather_none (vertex_record mesh)); [| |exact H].
  - intros a b w' Ha. now apply write_vertex_record.
  - intros a w' Ha. now apply write_vertex_none.
Qed.

Lemma write_mesh_body_none (mesh : Mesh) (w : world) :
  mesh_body mesh = None ->
  exists e w', for_each (loop_triangles mesh) (write_triangle mesh) w = (Raises e, w').
Proof.
  intros H.
  apply (for_each_gather_none (triangle_record mesh)); [| |exact H].
  - intros a b w' Ha. now apply write_triangle_record.
  - intros a w' Ha. now apply write_triangle_none.
Qed.

Lemma write_objects_loop_body_none (gm : Matrix) (um : bool) (obj : Object)
    (rest : list Object) (mesh : Mesh) (w : world) :
  resolve um obj = Some mesh ->
  object_body gm um obj = None ->
  exists e w', write_objects_loop gm um (obj :: rest) w = (Raises e, w').
Proof.
  unfold object_body. intros Hres Hnone. rewrite Hres in Hnone.
  unfold resolve in Hres. cbn [write_objects_loop].
  destruct (mesh_owner_to_mesh um obj) as [|[m|]]; try discriminate.
  inversion Hres; subst m. cbv zeta.
  destruct (prepare_mesh (matmul gm (matrix_world obj)) mesh) as [mesh'|e] eqn:Ep.
  - destruct (write_mesh_body_none mesh' w Hnone) as [e [w' He]].
    exists e, w'. unfold bind at 1. unfold lift.
    now apply bind_raises.
  - exists e, w. reflexivity.
Qed.

Lemma write_header_loop_long_name (um : bool) (obj : Object) (rest : list Object)
    (mesh : Mesh) (w : world) :
  resolve um obj = Some mesh ->
  2 ^ 32 <= len (encode_utf8 (name obj)) ->
  exists w', write_header_loop um (obj :: rest) w = (Raises struct_error, w').
Proof.
  intros Hres Hname. unfold resolve in Hres. cbn [write_header_loop].
  destruct (mesh_owner_to_mesh um obj) as [|[m|]]; try discriminate.
  cbv zeta. unfold struct_pack_I.
  rewrite (pack_unsigned_overflow 4 _ Hname).
  unfold bind at 1.
  destruct (2 ^ 16 <=? _); cbn; eauto.
Qed.

Lemma write_header_loop_returns (um : bool) (objects : list Object) (w w' : world) :
  write_header_loop um objects w = (Returns tt, w') ->
  exists pre rest,
    objects = pre ++ rest /\ Forall (header_ok um) pre /\ stops um rest
    /\ w' = emit (List.concat (map (object_metadata um) pre)) w.
Proof.
  revert w. induction objects as [|obj objects IH]; intros w H.
  - exists [], []. cbn in *. inversion H; subst.
    repeat split; [constructor | now rewrite emit_nil].
  - destruct (resolve um obj) as [mesh|] eqn:Hres.
    + destruct (N.lt_ge_cases (len (encode_utf8 (name obj))) (2 ^ 32)) as [Hname|Hname].
      * destruct (N.lt_ge_cases (num_tris mesh) (2 ^ 16)) as [Htris|Htris].
        -- rewrite (write_header_loop_step objects w Hres Hname Htris) in H.
           destruct (IH _ H) as [pre [rest [-> [Hpre [Hstop ->]]]]].
           exists (obj :: pre), rest. repeat split.
           ++ constructor; [now exists mesh | exact Hpre].
           ++ exact Hstop.
           ++ cbn [map List.concat]. rewrite emit_emit.
              replace (object_metadata um obj)
                with (metadata_block (encode_utf8 (name obj)) (num_tris mesh))
                by (unfold object_metadata; now rewrite Hres).
              reflexivity.
        -- rewrite (write_header_loop_overflow objects w Hres Hname Htris) in H.
           discriminate.
      * destruct (write_header_loop_long_name um obj objects mesh w Hres Hname) as [w'' Hw].
        rewrite Hw in H. discriminate.
    + exists [], (obj :: objects).
      rewrite (write_header_loop_stops (rest := obj :: objects) w Hres) in H.
      inversion H; subst.
      repeat split; [constructor | exact Hres | now rewrite emit_nil].
Qed.

Lemma write_objects_loop_returns (gm : Matrix) (um : bool) (objects : list Object)
    (w w' : world) :
  write_objects_loop gm um objects w = (Returns tt, w') ->
  exists pre rest,
    objects = pre ++ rest /\ Forall (body_ok gm um) pre /\ stops um rest
    /\ w' = emit (List.concat (map (body_bytes gm um) pre)) w.
Proof.
  revert w. induction objects as [|obj objects IH]; intros w H.
  - exists [], []. cbn in *. inversion H; subst.
    repeat split; [constructor | now rewrite emit_nil].
  - destruct (resolve um obj) as [mesh|] eqn:Hres.
    + destruct (object_body gm um obj) as [bs|] eqn:Hbody.
      * rewrite (write_objects_loop_step objects w Hbody) in H.
        destruct (IH _ H) as [pre [rest [-> [Hpre [Hstop ->]]]]].
        exists (obj :: pre), rest. repeat split.
        -- constructor; [now exists bs | exact Hpre].
        -- exact Hstop.
        -- cbn [map List.concat]. rewrite emit_emit.
           replace (body_bytes gm um obj) with bs
             by (unfold body_bytes; now rewrite Hbody).
           reflexivity.
      * destruct (write_objects_loop_body_none gm um obj objects mesh w Hres Hbody)
          as [e [w'' Hw]].
        rewrite Hw in H. discriminate.
    + exists [], (obj :: objects).
      rewrite (write_objects_loop_stops gm (rest := obj :: objects) w Hres) in H.
      inversion H; subst.
      repeat split; [constructor | exact Hres | now rewrite emit_nil].
Qed.

(** The place where the loops stop is determined by the list. *)
Lemma stop_point_unique (um : bool) (pre1 rest1 pre2 rest2 : list Object) :
  pre1 ++ rest1 = pre2 ++ rest2 ->
  Forall (fun obj => resolve um obj <> None) pre1 -> stops um rest1 ->
  Forall (fun obj => resolve um obj <> None) pre2 -> stops um rest2 ->
  pre1 = pre2 /\ rest1 = rest2.
Proof.
  revert pre2. induction pre1 as [|a pre1 IH]; intros pre2 Heq H1 S1 H2 S2.
  - destruct pre2 as [|b pre2]; [now split|].
    cbn in Heq. subst rest1. cbn in S1.
    apply Forall_inv in H2. contradiction.
  - destruct pre2 as [|b pre2].
    + cbn in Heq. subst rest2. cbn in S2.
      apply Forall_inv in H1. contradiction.
    + cbn in Heq. injection Heq as Hab Htail. subst b.
      apply Forall_inv_tail in H1. apply Forall_inv_tail in H2.
      destruct (IH pre2 Htail H1 S1 H2 S2) as [-> ->]. now split.
Qed.

Lemma header_ok_resolves (um : bool) (obj : Object) :
  header_ok um obj -> resolve um obj <> None.
Proof. intros [mesh [H _]]. congruence. Qed.

Lemma body_ok_resolves (gm : Matrix) (um : bool) (obj : Object) :
  body_ok gm um obj -> resolve um obj <> None.
Proof.
  intros [bs H]. unfold object_body in H.
  destruct (resolve um obj); [congruence | discriminate].
Qed.

Lemma write_header_returns (um : bool) (objects : list Object) (w w' : world) :
  write_header objects um w = (Returns tt, w') ->
  count_MESH objects < 2 ^ 32
  /\ write_header_loop um objects (emit (preamble ++ le_bytes 4 (count_MESH objects)) w)
     = (Returns tt, w').
Proof.
  intros H.
  destruct (N.lt_ge_cases (count_MESH objects) (2 ^ 32)) as [Hc|Hc].
  - split; [exact Hc|]. now rewrite <- (write_header_run um w Hc).
  - exfalso. unfold write_header in H. rewrite sum_ones in H.
    fold (count_MESH objects) in H.
    unfold struct_pack_I at 2 in H. rewrite (pack_unsigned_overflow 4 _ Hc) in H.
    unfold bind, lift, buffer_write in H. cbn in H. discriminate.
Qed.

(** X5: the raw writer returns exactly when the count fits 32 bits and the
    objects before the first one that fails to resolve (all of them when
    none fails) can be written; the buffer then receives the preamble, the
    count of the whole list, one metadata block for each of these objects and
    then one body block for each of the same objects, and nothing else
    changes. *)
Theorem raw_writer_returns_iff (objects : list Object) (gm : Matrix) (um : bool)
    (w w' : world) :
  write_sfmesh_raw objects gm um w = (Returns tt, w')
  <-> exists pre rest,
        objects = pre ++ rest
        /\ Forall (header_ok um) pre /\ Forall (body_ok gm um) pre
        /\ stops um rest
        /\ count_MESH objects < 2 ^ 32
        /\ w' = emit (raw_stream gm um pre rest) w.
Proof.
  split.
  - intros H. unfold write_sfmesh_raw, write_objects in H. unfold bind in H.
    destruct (write_header objects um w) as [[[]|e] w1] eqn:Hh; [|discriminate].
    destruct (write_header_returns um objects w w1 Hh) as [Hc Hloop].
    destruct (write_header_loop_returns um objects _ w1 Hloop)
      as [pre1 [rest1 [E1 [Hpre1 [Hs1 Hw1]]]]].
    destruct (write_objects_loop_returns gm um objects w1 w' H)
      as [pre2 [rest2 [E2 [Hpre2 [Hs2 Hw2]]]]].
    assert (Hsame : pre1 = pre2 /\ rest1 = rest2).
    { apply (stop_point_unique um); try assumption.
      - congruence.
      - eapply Forall_impl; [|exact Hpre1]. apply header_ok_resolves.
      - eapply Forall_impl; [|exact Hpre2]. apply body_ok_resolves. }
    destruct Hsame as [<- <-].
    exists pre1, rest1. repeat split; try assumption.
    rewrite Hw2, Hw1. repeat rewrite emit_emit. unfold raw_stream.
    rewrite <- E1. now repeat rewrite <- app_assoc.
  - intros [pre [rest [-> [Hh [Hb [Hs [Hc ->]]]]]]].
    now apply write_sfmesh_raw_run.
Qed.

(** X11: only [to_mesh] is guarded.  When the header pass returns and the
    host's preparation of an object's mesh raises in the body pass (for
    instance [calc_tangents] on a mesh without UV map), the exception leaves
    [write_sfmesh]: the body blocks of the objects before it are in the
    buffer, and no file is written. *)
Theorem preparation_error_propagates (path : string) (gm : Matrix) (um raw_file : bool)
    (pre : list Object) (obj : Object) (rest : list Object) (mesh : Mesh)
    (e : exn) (w w1 : world) :
  write_header (pre ++ obj :: rest) um (fresh w) = (Returns tt, w1) ->
  Forall (body_ok gm um) pre ->
  resolve um obj = Some mesh ->
  prepare_mesh (matmul gm (matrix_world obj)) mesh = Raises e ->
  write_sfmesh path (pre ++ obj :: rest) gm um raw_file w
  = (Raises e, emit (List.concat (map (body_bytes gm um) pre)) w1)
  /\ files (emit (List.concat (map (body_bytes gm um) pre)) w1) = files w.
Proof.
  intros Hh Hpre Hres Hprep.
  assert (Hraw : write_sfmesh_raw (pre ++ obj :: rest) gm um (fresh w)
                 = (Raises e, emit (List.concat (map (body_bytes gm um) pre)) w1)).
  { unfold write_sfmesh_raw, write_objects.
    rewrite (bind_returns _ _ Hh).
    rewrite (write_objects_loop_prefix (obj :: rest) _ Hpre).
    unfold resolve in Hres. cbn [write_objects_loop].
    destruct (mesh_owner_to_mesh um obj) as [|[m|]]; try discriminate.
    inversion Hres; subst m. cbv zeta.
    unfold bind at 1. unfold lift. now rewrite Hprep. }
  exact (write_sfmesh_raises_frame path _ gm um raw_file w _ e Hraw).
Qed.

End Outcomes.

(** ** Sizes and unambiguous fields *)

Section Sizes.
Context {SP : SinglePrecision} {BP : Bpy} {LZ : Lzma}.

Lemma metadata_block_length (obj_name : list byte) (count : N) :
  List.length (metadata_block obj_name count) = (6 + List.length obj_name)%nat.
Proof.
  unfold metadata_block. repeat rewrite length_app.
  repeat rewrite le_bytes_length. lia.
Qed.

Lemma object_metadata_length (um : bool) (obj : Object) :
  header_ok um obj ->
  List.length (object_metadata um obj) = (6 + List.length (encode_utf8 (name obj)))%nat.
Proof.
  intros [mesh [Hres _]]. unfold object_metadata. rewrite Hres.
  apply metadata_block_length.
Qed.

Lemma body_bytes_length (gm : Matrix) (um : bool) (obj : Object) :
  body_ok gm um obj -> three_cornered gm um obj ->
  List.length (body_bytes gm um obj) = (132 * body_triangles gm um obj)%nat.
Proof.
  intros [bs Hbs] H3.
  unfold body_bytes, body_triangles, three_cornered, prepared, object_body in *.
  rewrite Hbs.
  destruct (resolve um obj) as [mesh|]; [|discriminate].
  destruct (prepare_mesh (matmul gm (matrix_world obj)) mesh) as [mesh'|e];
    [|discriminate].
  exact (mesh_body_length mesh' bs H3 Hbs).
Qed.

(** X6: the size of the raw stream.  When the written objects have
    triangles of three corners, the buffer grows by 11 bytes plus, for each
    written object, 6 bytes, the bytes of its name and 132 bytes per
    triangle. *)
Theorem raw_stream_size (gm : Matrix) (um : bool) (pre rest : list Object) (w : world) :
  Forall (header_ok um) pre ->
  Forall (body_ok gm um) pre ->
  Forall (three_cornered gm um) pre ->
  stops um rest ->
  count_MESH (pre ++ rest) < 2 ^ 32 ->
  exists raw,
    write_sfmesh_raw (pre ++ rest) gm um w
    = (Returns tt, mk_world (buffer w ++ raw) (reports w) (files w))
    /\ List.length raw = (11 + total (map (object_size gm um) pre))%nat.
Proof.
  intros Hh Hb H3 Hs Hc.
  exists (raw_stream gm um pre rest). split.
  - exact (write_sfmesh_raw_run gm um pre rest w Hh Hb Hs Hc).
  - unfold raw_stream. repeat rewrite length_app. rewrite le_bytes_length.
    change (List.length preamble) with 7%nat.
    assert (Hsum : (List.length (List.concat (map (object_metadata um) pre))
                    + List.length (List.concat (map (body_bytes gm um) pre))
                    = total (map (object_size gm um) pre))%nat).
    { clear Hs Hc. induction pre as [|obj pre IH]; [reflexivity|].
      cbn [map List.concat total fold_right]. repeat rewrite length_app.
      fold (total (map (object_size gm um) pre)).
      rewrite <- (IH (Forall_inv_tail Hh) (Forall_inv_tail Hb) (Forall_inv_tail H3)).
      rewrite (object_metadata_length um obj (Forall_inv Hh)).
      rewrite (body_bytes_length gm um obj (Forall_inv Hb) (Forall_inv H3)).
      unfold object_size. lia. }
    lia.
Qed.

Lemma le_bytes_inj (width : nat) (a b : N) :
  a < 2 ^ (8 * N.of_nat width) -> b < 2 ^ (8 * N.of_nat width) ->
  le_bytes width a = le_bytes width b -> a = b.
Proof.
  intros Ha Hb H.
  rewrite <- (le_value_le_bytes width a Ha), <- (le_value_le_bytes width b Hb).
  now rewrite H.
Qed.

Lemma app_same_length {A : Type} (l1 l2 r1 r2 : list A) :
  List.length l1 = List.length l2 -> l1 ++ r1 = l2 ++ r2 -> l1 = l2 /\ r1 = r2.
Proof.
  revert l2. induction l1 as [|a l1 IH]; intros [|b l2] Hlen H; try discriminate.
  - now split.
  - cbn in *. injection H as -> H. injection Hlen as Hlen.
    destruct (IH l2 Hlen H) as [-> ->]. now split.
Qed.

(** X7: a metadata block can be read back in one way only.  For names
    shorter than 2^32 bytes and counts below 65536, two blocks followed by
    any bytes are equal only for the same name, the same count and the same
    following bytes; the count field reads back as the triangle count. *)
Theorem metadata_block_unambiguous (name1 name2 : list byte) (count1 count2 : N)
    (rest1 rest2 : list byte) :
  len name1 < 2 ^ 32 -> len name2 < 2 ^ 32 ->
  count1 < 2 ^ 16 -> count2 < 2 ^ 16 ->
  metadata_block name1 count1 ++ rest1 = metadata_block name2 count2 ++ rest2 ->
  name1 = name2 /\ count1 = count2 /\ rest1 = rest2.
Proof.
  intros Hn1 Hn2 Hc1 Hc2 H. unfold metadata_block in H.
  repeat rewrite <- app_assoc in H.
  apply app_same_length in H; [|now repeat rewrite le_bytes_length].
  destruct H as [Hlen H].
  apply (le_bytes_inj 4 _ _ Hn1 Hn2) in Hlen.
  apply app_same_length in H; [|unfold len in Hlen; lia].
  destruct H as [-> H].
  apply app_same_length in H; [|now repeat rewrite le_bytes_length].
  destruct H as [Hcount ->].
  apply (le_bytes_inj 2 _ _ Hc1 Hc2) in Hcount.
  now repeat split.
Qed.

Lemma b64_char_in (i : N) : i < 64 -> In (b64_char i) b64_alphabet.
Proof.
  intros Hi. unfold b64_char. apply nth_In.
  change (List.length b64_alphabet) with 64%nat. lia.
Qed.

Lemma b64encode_chars (bs : list byte) :
  Forall (fun c => In c b64_alphabet \/ c = b64_pad) (b64encode bs).
Proof.
  induction bs as [|a|a b|a b c rest IH] using list_ind3; cbn [b64encode].
  - apply Forall_nil.
  - apply Forall_cons; [left; apply b64_char_in, sextet0_lt, to_N_lt_256|].
    apply Forall_cons; [left; apply b64_char_in, sextet1_lt; lia|].
    apply Forall_cons; [now right|].
    apply Forall_cons; [now right | apply Forall_nil].
  - apply Forall_cons; [left; apply b64_char_in, sextet0_lt, to_N_lt_256|].
    apply Forall_cons; [left; apply b64_char_in, sextet1_lt, to_N_lt_256|].
    apply Forall_cons; [left; apply b64_char_in, sextet2_lt; lia|].
    apply Forall_cons; [now right | apply Forall_nil].
  - apply Forall_cons; [left; apply b64_char_in, sextet0_lt, to_N_lt_256|].
    apply Forall_cons; [left; apply b64_char_in, sextet1_lt, to_N_lt_256|].
    apply Forall_cons; [left; apply b64_char_in, sextet2_lt, to_N_lt_256|].
    apply Forall_cons; [left; apply b64_char_in, sextet3_lt | exact IH].
Qed.

Lemma not_in_b64 (c : byte) :
  forallb (fun a => negb (Byte.eqb a c)) (b64_pad :: b64_alphabet) = true ->
  ~ (In c b64_alphabet \/ c = b64_pad).
Proof.
  intros H Hin. rewrite forallb_forall in H.
  assert (Hc : In c (b64_pad :: b64_alphabet)).
  { destruct Hin as [Hin | ->]; [now right | now left]. }
  specialize (H c Hc).
  assert (Heq : Byte.eqb c c = true) by now apply Byte.byte_dec_lb.
  rewrite Heq in H. discriminate.
Qed.

Lemma b64encode_length (bs : list byte) :
  List.length (b64encode bs) = (4 * ((List.length bs + 2) / 3))%nat.
Proof.
  induction bs as [|a|a b|a b c rest IH] using list_ind3; try reflexivity.
  cbn [b64encode List.length]. rewrite IH.
  replace (S (S (S (List.length rest))) + 2)%nat
    with ((List.length rest + 2) + 1 * 3)%nat by lia.
  rewrite Nat.div_add by lia. lia.
Qed.

(** X8: the text between the quotes of a packed file is made of the 64
    characters of the base64 alphabet and the padding character only, so it
    holds no double quote and no backslash that would end or escape the
    literal; it has four characters for every three bytes (rounded up) of
    the compressed stream. *)
Theorem packed_text_is_a_plain_literal (path : string) (objects : list Object)
    (gm : Matrix) (um : bool) (w w1 : world) :
  write_sfmesh_raw objects gm um (fresh w) = (Returns tt, w1) ->
  len (buffer w1) < 2 ^ 64 ->
  exists text w2,
    write_sfmesh path objects gm um false w = (Returns tt, w2)
    /\ fs_read path (files w2) = Some (return_quote ++ text ++ [double_quote])
    /\ Forall (fun c => In c b64_alphabet \/ c = b64_pad) text
    /\ ~ In double_quote text
    /\ ~ In x5c text
    /\ List.length text
       = (4 * ((List.length (lzma_compress (buffer w1)) + 2) / 3))%nat.
Proof.
  intros Hraw Hsize.
  exists (b64encode (patched (buffer w1))). eexists.
  split; [exact (write_sfmesh_packed_mode path objects gm um w w1 Hraw Hsize)|].
  cbn [files]. rewrite fs_read_head.
  pose proof (b64encode_chars (patched (buffer w1))) as Hchars.
  split; [reflexivity|]. split; [exact Hchars|].
  rewrite Forall_forall in Hchars.
  split; [|split].
  - intros Hin. exact (not_in_b64 double_quote eq_refl (Hchars _ Hin)).
  - intros Hin. exact (not_in_b64 x5c eq_refl (Hchars _ Hin)).
  - rewrite b64encode_length.
    destruct (patched_layout (buffer w1)) as [-> _]. reflexivity.
Qed.

Lemma empty_scene_run (path : string) (gm : Matrix) (um : bool) (w : world) :
  (exists w2,
     write_sfmesh path [] gm um true w = (Returns tt, w2)
     /\ fs_read path (files w2)
        = Some [x01; x00; x00; x00; x00; x00; x00; x00; x00; x00; x00]
     /\ reports w2 = reports w)
  /\ (exists stream w2,
        write_sfmesh path [] gm um false w = (Returns tt, w2)
        /\ fs_read path (files w2) = Some (return_quote ++ b64encode stream ++ [double_quote])
        /\ le_value (firstn 8 (skipn 5 stream)) = 11
        /\ reports w2 = reports w).
Proof.
  assert (Hraw : write_sfmesh_raw [] gm um (fresh w)
                 = (Returns tt, mk_world (preamble ++ [x00; x00; x00; x00])
                                  (reports w) (files w))) by reflexivity.
  split.
  - eexists. split; [exact (write_sfmesh_raw_mode path [] gm um w _ Hraw)|].
    cbn [files reports buffer]. rewrite fs_read_head. now split.
  - assert (Hsize : len (preamble ++ [x00; x00; x00; x00]) < 2 ^ 64) by reflexivity.
    exists (patched (preamble ++ [x00; x00; x00; x00])). eexists.
    split; [exact (write_sfmesh_packed_mode path [] gm um w _ Hraw Hsize)|].
    cbn [files reports buffer]. rewrite fs_read_head.
    split; [reflexivity|]. split; [|reflexivity].
    destruct (patched_layout (preamble ++ [x00; x00; x00; x00])) as [_ [_ [-> _]]].
    reflexivity.
Qed.

(** X9: the empty scene.  With no object the raw file holds 11 bytes, the
    preamble and a count of 0; packed, the size field of the stream in the
    file reads 11.  Nothing is reported. *)
Theorem empty_scene_files (path : string) (gm : Matrix) (um : bool) (w : world) :
  (exists w2,
     write_sfmesh path [] gm um true w = (Returns tt, w2)
     /\ fs_read path (files w2)
        = Some [x01; x00; x00; x00; x00; x00; x00; x00; x00; x00; x00]
     /\ reports w2 = reports w)
  /\ (exists stream w2,
        write_sfmesh path [] gm um false w = (Returns tt, w2)
        /\ fs_read path (files w2) = Some (return_quote ++ b64encode stream ++ [double_quote])
        /\ le_value (firstn 8 (skipn 5 stream)) = 11
        /\ reports w2 = reports w).
Proof. exact (empty_scene_run path gm um w). Qed.

End Sizes.

(** ** The operator: one file, or one file per object *)

Section Execute.
Context {SP : SinglePrecision} {BP : Bpy} {LZ : Lzma} {GL : Glue}.

Lemma fs_read_app (p q : string) (content : list byte) (fs : filesystem) :
  fs_read p (fs ++ [(q, content)])
  = match fs_read p fs with
    | Some c => Some c
    | None => if String.eqb q p then Some content else None
    end.
Proof.
  induction fs as [|[r c] fs IH]; cbn; [reflexivity|].
  now destruct (String.eqb r p).
Qed.

Lemma execute_off (self : ExportSFMesh.Operator) (context : ExportSFMesh.BlenderContext)
    (w : world) :
  ExportSFMesh.batch_mode self = "OFF"%string ->
  ExportSFMesh.execute self context w
  = (write_sfmesh (ExportSFMesh.export_path self)
       (ExportSFMesh.export_objects self context)
       (ExportSFMesh.export_matrix self context)
       (ExportSFMesh.use_mesh_modifiers self) (ExportSFMesh.write_raw_file self) ;;
     ret ["FINISHED"%string]) w.
Proof. intros H. unfold ExportSFMesh.execute. rewrite H. reflexivity. Qed.

Lemma execute_object (self : ExportSFMesh.Operator) (context : ExportSFMesh.BlenderContext)
    (w : world) :
  ExportSFMesh.batch_mode self = "OBJECT"%string ->
  ExportSFMesh.execute self context w
  = (for_each (ExportSFMesh.export_objects self context)
       (fun object =>
          write_sfmesh
            (ExportSFMesh.obj_filepath (fst (splitext (ExportSFMesh.export_path self)))
               (ExportSFMesh.export_ext self) object)
            [object] (ExportSFMesh.export_matrix self context)
            (ExportSFMesh.use_mesh_modifiers self) (ExportSFMesh.write_raw_file self)) ;;
     ret ["FINISHED"%string]) w.
Proof. intros H. unfold ExportSFMesh.execute. rewrite H. reflexivity. Qed.

(** The export of one object that can be exported. *)
Lemma single_export (path : string) (gm : Matrix) (um raw_file : bool) (obj : Object)
    (raw : list byte) (w : world) :
  exports gm um obj raw -> len raw < 2 ^ 64 ->
  write_sfmesh path [obj] gm um raw_file w
  = (Returns tt,
     mk_world raw (reports w) ((path, file_content raw_file raw) :: fs_remove path (files w))).
Proof.
  intros Hexp Hsize. specialize (Hexp w). destruct raw_file.
  - exact (write_sfmesh_raw_mode path [obj] gm um w _ Hexp).
  - exact (write_sfmesh_packed_mode path [obj] gm um w _ Hexp Hsize).
Qed.

(** The per-object loop on objects that can all be exported. *)
Lemma batch_loop_files (path_of : Object -> string) (gm : Matrix) (um raw_file : bool)
    (objs : list Object) (raws : list (list byte)) :
  Forall2 (exports gm um) objs raws ->
  Forall (fun raw => len raw < 2 ^ 64) raws ->
  forall w, exists w',
    for_each objs (fun object => write_sfmesh (path_of object) [object] gm um raw_file) w
    = (Returns tt, w')
    /\ reports w' = reports w
    /\ forall p,
         fs_read p (files w')
         = match fs_read p (rev (combine (map path_of objs)
                                         (map (file_content raw_file) raws))) with
           | Some c => Some c
           | None => fs_read p (files w)
           end.
Proof.
  intros H. induction H as [|obj raw objs raws Hexp _ IH]; intros Hsize w.
  - exists w. cbn. repeat split.
  - cbn [for_each].
    rewrite (bind_returns _ _
               (single_export (path_of obj) gm um raw_file obj raw w Hexp (Forall_inv Hsize))).
    destruct (IH (Forall_inv_tail Hsize)
                 (mk_world raw (reports w)
                    ((path_of obj, file_content raw_file raw)
                       :: fs_remove (path_of obj) (files w))))
      as [w' [Hrun [Hrep Hfiles]]].
    exists w'. split; [exact Hrun|]. split; [exact Hrep|].
    intros p. rewrite Hfiles. cbn [map combine rev files].
    rewrite fs_read_app, fs_read_open.
    destruct (fs_read p (rev (combine (map path_of objs)
                                (map (file_content raw_file) raws))));
      [reflexivity|].
    now destruct (String.eqb (path_of obj) p).
Qed.

(** X12: batch mode OBJECT, every object exportable on its own.  [execute]
    returns FINISHED and reports nothing; each object is exported alone to
    the path made of the prefix, its cleaned name and the extension.  A path
    holds the export of the last object of the list that maps to it (a later
    object with the same cleaned name overwrites the file of an earlier one),
    and every other path is as before. *)
Theorem batch_object_last_export_wins (self : ExportSFMesh.Operator)
    (context : ExportSFMesh.BlenderContext) (raws : list (list byte)) (w : world) :
  ExportSFMesh.batch_mode self = "OBJECT"%string ->
  Forall2 (exports (ExportSFMesh.export_matrix self context)
                   (ExportSFMesh.use_mesh_modifiers self))
          (ExportSFMesh.export_objects self context) raws ->
  Forall (fun raw => len raw < 2 ^ 64) raws ->
  exists w',
    ExportSFMesh.execute self context w = (Returns ["FINISHED"%string], w')
    /\ reports w' = reports w
    /\ forall p,
         fs_read p (files w')
         = match fs_read p
                   (rev (combine
                           (map (ExportSFMesh.obj_filepath
                                   (fst (splitext (ExportSFMesh.export_path self)))
                                   (ExportSFMesh.export_ext self))
                                (ExportSFMesh.export_objects self context))
                           (map (file_content (ExportSFMesh.write_raw_file self)) raws)))
           with
           | Some c => Some c
           | None => fs_read p (files w)
           end.
Proof.
  intros Hmode Hexp Hsize.
  destruct (batch_loop_files
              (ExportSFMesh.obj_filepath (fst (splitext (ExportSFMesh.export_path self)))
                 (ExportSFMesh.export_ext self))
              _ _ (ExportSFMesh.write_raw_file self) _ raws Hexp Hsize w)
    as [w' [Hrun [Hrep Hfiles]]].
  exists w'. split; [|split; assumption].
  rewrite (execute_object self context w Hmode).
  now rewrite (bind_returns _ _ Hrun).
Qed.

(** X13: batch mode OBJECT, an object whose export raises.  The exception
    leaves [execute]: the objects before it have their files, the failing
    object and the objects after it get none, although they could be
    exported on their own. *)
Theorem batch_object_stops_at_exception (self : ExportSFMesh.Operator)
    (context : ExportSFMesh.BlenderContext) (pre : list Object) (obj : Object)
    (rest : list Object) (raws : list (list byte)) (e : exn) (w : world) :
  ExportSFMesh.batch_mode self = "OBJECT"%string ->
  ExportSFMesh.export_objects self context = pre ++ obj :: rest ->
  Forall2 (exports (ExportSFMesh.export_matrix self context)
                   (ExportSFMesh.use_mesh_modifiers self)) pre raws ->
  Forall (fun raw => len raw < 2 ^ 64) raws ->
  (forall w0, exists w1,
      write_sfmesh_raw [obj] (ExportSFMesh.export_matrix self context)
        (ExportSFMesh.use_mesh_modifiers self) (fresh w0) = (Raises e, w1)) ->
  exists w',
    ExportSFMesh.execute self context w = (Raises e, w')
    /\ forall p,
         fs_read p (files w')
         = match fs_read p
                   (rev (combine
                           (map (ExportSFMesh.obj_filepath
                                   (fst (splitext (ExportSFMesh.export_path self)))
                                   (ExportSFMesh.export_ext self)) pre)
                           (map (file_content (ExportSFMesh.write_raw_file self)) raws)))
           with
           | Some c => Some c
           | None => fs_read p (files w)
           end.
Proof.
  intros Hmode Hobjs Hexp Hsize Hraise.
  rewrite (execute_object self context w Hmode), Hobjs.
  set (path_of := ExportSFMesh.obj_filepath (fst (splitext (ExportSFMesh.export_path self)))
                    (ExportSFMesh.export_ext self)).
  set (gm := ExportSFMesh.export_matrix self context) in *.
  set (um := ExportSFMesh.use_mesh_modifiers self) in *.
  set (raw_file := ExportSFMesh.write_raw_file self).
  assert (Hloop : forall w0, exists w',
            for_each (pre ++ obj :: rest)
              (fun object => write_sfmesh (path_of object) [object] gm um raw_file) w0
            = (Raises e, w')
            /\ forall p,
                 fs_read p (files w')
                 = match fs_read p (rev (combine (map path_of pre)
                                                 (map (file_content raw_file) raws))) with
                   | Some c => Some c
                   | None => fs_read p (files w0)
                   end).
  { clear w Hobjs. induction Hexp as [|o raw pre raws Ho _ IH]; intros w0.
    - destruct (Hraise w0) as [w1 Hw1].
      destruct (write_sfmesh_raises_frame (path_of obj) [obj] gm um raw_file
                  w0 w1 e Hw1) as [Hrun Hfiles].
      exists w1. cbn [app for_each]. split.
      + now apply bind_raises.
      + intros p. cbn. now rewrite Hfiles.
    - cbn [app for_each].
      rewrite (bind_returns _ _
                 (single_export (path_of o) gm um raw_file o raw w0 Ho (Forall_inv Hsize))).
      destruct (IH (Forall_inv_tail Hsize)
                   (mk_world raw (reports w0)
                      ((path_of o, file_content raw_file raw)
                         :: fs_remove (path_of o) (files w0))))
        as [w' [Hrun Hfiles]].
      exists w'. split; [exact Hrun|].
      intros p. rewrite Hfiles. cbn [map combine rev files].
      rewrite fs_read_app, fs_read_open.
      destruct (fs_read p (rev (combine (map path_of pre)
                                  (map (file_content raw_file) raws))));
        [reflexivity|].
      now destruct (String.eqb (path_of o) p). }
  destruct (Hloop w) as [w' [Hrun Hfiles]].
  exists w'. split; [|exact Hfiles].
  now apply bind_raises.
Qed.

(** X14: with no object to export, batch mode OBJECT writes no file and
    changes nothing, while mode OFF still writes the file of the empty
    scene (11 bytes in raw mode) at the path with the extension. *)
Theorem execute_without_objects (self : ExportSFMesh.Operator)
    (context : ExportSFMesh.BlenderContext) (w : world) :
  ExportSFMesh.export_objects self context = [] ->
  (ExportSFMesh.batch_mode self = "OBJECT"%string ->
     ExportSFMesh.execute self context w = (Returns ["FINISHED"%string], w))
  /\ (ExportSFMesh.batch_mode self = "OFF"%string ->
      ExportSFMesh.write_raw_file self = true ->
      exists w',
        ExportSFMesh.execute self context w = (Returns ["FINISHED"%string], w')
        /\ fs_read (ExportSFMesh.export_path self) (files w')
           = Some [x01; x00; x00; x00; x00; x00; x00; x00; x00; x00; x00]).
Proof.
  intros Hobjs. split.
  - intros Hmode. rewrite (execute_object self context w Hmode), Hobjs. reflexivity.
  - intros Hmode Hraw. rewrite (execute_off self context w Hmode), Hobjs, Hraw.
    destruct (empty_scene_run (ExportSFMesh.export_path self)
                (ExportSFMesh.export_matrix self context)
                (ExportSFMesh.use_mesh_modifiers self) w)
      as [[w2 [Hrun [Hfile _]]] _].
    exists w2. split; [|exact Hfile].
    now rewrite (bind_returns _ _ Hrun).
Qed.

(** X15: in batch mode OBJECT, however [execute] ends, a path that is not
    the path of one of the objects is left as it was; in particular nothing
    is written at the path the operator was given unless an object maps to
    it. *)
Theorem batch_object_touches_object_paths_only (self : ExportSFMesh.Operator)
    (context : ExportSFMesh.BlenderContext) (p : string) (w : world) :
  ExportSFMesh.batch_mode self = "OBJECT"%string ->
  (forall obj, In obj (ExportSFMesh.export_objects self context) ->
     p <> ExportSFMesh.obj_filepath (fst (splitext (ExportSFMesh.export_path self)))
            (ExportSFMesh.export_ext self) obj) ->
  fs_read p (files (snd (ExportSFMesh.execute self context w))) = fs_read p (files w).
Proof.
  intros Hmode Hp. rewrite (execute_object self context w Hmode).
  set (body := fun object : Object =>
         write_sfmesh
           (ExportSFMesh.obj_filepath (fst (splitext (ExportSFMesh.export_path self)))
              (ExportSFMesh.export_ext self) object)
           [object] (ExportSFMesh.export_matrix self context)
           (ExportSFMesh.use_mesh_modifiers self) (ExportSFMesh.write_raw_file self)).
  assert (Hloop : forall l w0,
            (forall obj, In obj l ->
               p <> ExportSFMesh.obj_filepath
                      (fst (splitext (ExportSFMesh.export_path self)))
                      (ExportSFMesh.export_ext self) obj) ->
            fs_read p (files (snd (for_each l body w0))) = fs_read p (files w0)).
  { induction l as [|a l IH]; intros w0 Hl; [reflexivity|].
    cbn [for_each]. unfold bind.
    pose proof (write_sfmesh_frame _ p [a]
                  (ExportSFMesh.export_matrix self context)
                  (ExportSFMesh.use_mesh_modifiers self)
                  (ExportSFMesh.write_raw_file self) w0 (Hl a (or_introl eq_refl)))
      as Hstep.
    fold (body a) in Hstep.
    destruct (body a w0) as [[[]|e] w1]; cbn [snd] in *.
    - rewrite (IH w1 (fun obj Hin => Hl obj (or_intror Hin))). exact Hstep.
    - exact Hstep. }
  specialize (Hloop (ExportSFMesh.export_objects self context) w Hp).
  unfold bind.
  destruct (for_each (ExportSFMesh.export_objects self context) body w) as [[[]|e] w1];
    exact Hloop.
Qed.

End Execute.

(** ** The further properties on concrete scenes *)

Lemma plane_body_ok : Forall (body_ok identity false) [plane].
Proof.
  constructor; [|constructor]. exists (body_bytes identity false plane).
  vm_compute. reflexivity.
Qed.

Lemma cube_exports : exports identity false cube (raw_stream identity false [cube] []).
Proof.
  intros w.
  exact (write_sfmesh_raw_run identity false [cube] [] (fresh w)
           cube_header_ok cube_body_ok I eq_refl).
Qed.

Lemma plane_exports : exports identity false plane (raw_stream identity false [plane] []).
Proof.
  intros w.
  exact (write_sfmesh_raw_run identity false [plane] [] (fresh w)
           plane_header_ok plane_body_ok I eq_refl).
Qed.

Lemma plane_size : len (raw_stream identity false [plane] []) < 2 ^ 64.
Proof. vm_compute. reflexivity. Qed.

Lemma dense_export_raises (w0 : world) :
  exists w1, write_sfmesh_raw [dense] identity false (fresh w0) = (Raises struct_error, w1).
Proof.
  eexists. unfold write_sfmesh_raw. apply bind_raises.
  exact (write_header_overflow false [] dense [] (flat (Nat.pow 2 16)) (fresh w0)
           (Forall_nil _) eq_refl dense_overflows eq_refl eq_refl).
Qed.

Lemma raw_mode_file_is_the_buffer_witness :
  exists w2,
    write_sfmesh "scene.sfmesh" [cube] identity false true blank = (Returns tt, w2)
    /\ fs_read "scene.sfmesh" (files w2) = Some (raw_stream identity false [cube] [])
    /\ reports w2 = [].
Proof.
  exact (raw_mode_file_is_the_buffer "scene.sfmesh" [cube] identity false blank _
           cube_scene_runs).
Defined.

Lemma write_sfmesh_raises_before_open_witness :
  exists w1,
    write_sfmesh "scene.txt" [dense] identity false false blank = (Raises struct_error, w1)
    /\ files w1 = [].
Proof.
  destruct (dense_export_raises blank) as [w1 Hraw].
  exists w1.
  exact (write_sfmesh_raises_before_open "scene.txt" [dense] identity false false
           blank w1 struct_error Hraw).
Defined.

Lemma write_sfmesh_touches_one_path_witness :
  fs_read "other.txt"
    (files (snd (write_sfmesh "scene.txt" [cube] identity false false
                   (mk_world [] [] [("other.txt"%string, [x2a])]))))
  = Some [x2a].
Proof.
  exact (write_sfmesh_touches_one_path "scene.txt" "other.txt" [cube] identity false false
           (mk_world [] [] [("other.txt"%string, [x2a])])
           ltac:(discriminate)).
Defined.

Lemma raw_writer_returns_iff_witness :
  write_sfmesh_raw [cube; camera; plane] identity false blank
  = (Returns tt, emit (raw_stream identity false [cube] [camera; plane]) blank).
Proof.
  apply (proj2 (raw_writer_returns_iff [cube; camera; plane] identity false blank _)).
  exists [cube], [camera; plane].
  split; [reflexivity|]. split; [exact cube_header_ok|]. split; [exact cube_body_ok|].
  split; [reflexivity|]. split; reflexivity.
Defined.

Lemma raw_stream_size_witness :
  exists raw,
    write_sfmesh_raw [cube] identity false blank = (Returns tt, mk_world raw [] [])
    /\ List.length raw = (11 + (6 + 4 + 132 * 12))%nat.
Proof.
  destruct (raw_stream_size identity false [cube] [] blank
              cube_header_ok cube_body_ok
              (Forall_cons cube (soup_triangles_have_three_loops 12 : three_cornered identity false cube) (Forall_nil _))
              I eq_refl) as [raw [Hrun Hlen]].
  exists raw. split; [exact Hrun | exact Hlen].
Defined.

Lemma metadata_block_unambiguous_witness :
  list_byte_of_string "Cube" = list_byte_of_string "Cube" /\ 12 = 12
  /\ [x2a] = [x2a].
Proof.
  exact (metadata_block_unambiguous
           (list_byte_of_string "Cube") (list_byte_of_string "Cube") 12 12 [x2a] [x2a]
           eq_refl eq_refl eq_refl eq_refl eq_refl).
Defined.

Lemma packed_text_is_a_plain_literal_witness :
  exists text w2,
    write_sfmesh "scene.txt" [cube] identity false false blank = (Returns tt, w2)
    /\ fs_read "scene.txt" (files w2) = Some (return_quote ++ text ++ [double_quote])
    /\ ~ In double_quote text.
Proof.
  destruct (packed_text_is_a_plain_literal "scene.txt" [cube] identity false blank _
              cube_scene_runs cube_scene_size)
    as [text [w2 [Hrun [Hfile [_ [Hquote _]]]]]].
  exists text, w2. split; [exact Hrun|]. split; [exact Hfile | exact Hquote].
Defined.

Lemma preparation_error_propagates_witness :
  @write_sfmesh bits32 strict_bpy stored_lzma "scene.txt" [bare_object] tt false false blank
  = (Raises RuntimeError,
     mk_world (preamble ++ [x01; x00; x00; x00]
                 ++ [x04; x00; x00; x00] ++ list_byte_of_string "Bare" ++ [x01; x00])
              [] [])
  /\ @nil (string * list byte) = [].
Proof.
  exact (@preparation_error_propagates bits32 strict_bpy stored_lzma
           "scene.txt" tt false false [] bare_object [] bare RuntimeError blank
           (mk_world (preamble ++ [x01; x00; x00; x00]
                        ++ [x04; x00; x00; x00] ++ list_byte_of_string "Bare"
                        ++ [x01; x00]) [] [])
           eq_refl (Forall_nil _) eq_refl eq_refl).
Defined.

#[local] Existing Instance plain_glue.

Lemma batch_exports :
  Forall2 (exports identity false) [cube; plane]
    [raw_stream identity false [cube] []; raw_stream identity false [plane] []].
Proof.
  constructor; [exact cube_exports|].
  constructor; [exact plane_exports | constructor].
Qed.

Lemma batch_sizes :
  Forall (fun raw => len raw < 2 ^ 64)
    [raw_stream identity false [cube] []; raw_stream identity false [plane] []].
Proof.
  constructor; [exact cube_scene_size|].
  constructor; [exact plane_size | constructor].
Qed.

Lemma cube_batch_size :
  Forall (fun raw => len raw < 2 ^ 64) [raw_stream identity false [cube] []].
Proof. constructor; [exact cube_scene_size | constructor]. Qed.

Lemma batch_object_last_export_wins_witness :
  exists w',
    ExportSFMesh.execute (batch_operator "OBJECT" true) (scene_of [cube; plane]) blank
    = (Returns ["FINISHED"%string], w')
    /\ reports w' = []
    /\ fs_read "out.sfmeshCube.sfmesh" (files w') = Some (raw_stream identity false [cube] [])
    /\ fs_read "out.sfmeshPlane.sfmesh" (files w') = Some (raw_stream identity false [plane] []).
Proof.
  destruct (batch_object_last_export_wins (batch_operator "OBJECT" true)
              (scene_of [cube; plane]) _ blank eq_refl batch_exports batch_sizes)
    as [w' [Hrun [Hrep Hfiles]]].
  exists w'. split; [exact Hrun|]. split; [exact Hrep|].
  split; rewrite Hfiles; reflexivity.
Defined.

Lemma batch_object_stops_at_exception_witness :
  exists w',
    ExportSFMesh.execute (batch_operator "OBJECT" true) (scene_of [cube; dense; plane]) blank
    = (Raises struct_error, w')
    /\ fs_read "out.sfmeshCube.sfmesh" (files w') = Some (raw_stream identity false [cube] [])
    /\ fs_read "out.sfmeshDense.sfmesh" (files w') = None
    /\ fs_read "out.sfmeshPlane.sfmesh" (files w') = None.
Proof.
  destruct (batch_object_stops_at_exception (batch_operator "OBJECT" true)
              (scene_of [cube; dense; plane]) [cube] dense [plane]
              [raw_stream identity false [cube] []] struct_error blank
              eq_refl eq_refl
              (Forall2_cons _ _ cube_exports (Forall2_nil _))
              cube_batch_size
              dense_export_raises)
    as [w' [Hrun Hfiles]].
  exists w'. split; [exact Hrun|].
  repeat split; rewrite Hfiles; reflexivity.
Defined.

Lemma execute_without_objects_witness :
  ExportSFMesh.execute (batch_operator "OBJECT" true) (scene_of []) blank
  = (Returns ["FINISHED"%string], blank).
Proof.
  exact (proj1 (execute_without_objects (batch_operator "OBJECT" true) (scene_of []) blank
                  eq_refl) eq_refl).
Defined.

Lemma batch_object_touches_object_paths_only_witness :
  fs_read "out.sfmesh"
    (files (snd (ExportSFMesh.execute (batch_operator "OBJECT" true) (scene_of [cube]) blank)))
  = None.
Proof.
  apply (batch_object_touches_object_paths_only (batch_operator "OBJECT" true)
           (scene_of [cube]) "out.sfmesh" blank eq_refl).
  intros obj [<- | []]. discriminate.
Defined.
